(** * Train-graph trajectory engine: [get_train_movement]

    A shallow embedding of [train-generator/main.py].  The engine turns a
    timetable (departure station and time, ordered stops with dwell
    times), a constant velocity and a network (station name to position)
    into the list of (time, location) samples of one train.

    The arithmetic of the source is Python's [float].  The embedding is
    written once over an interface [Arith] of the operations the source
    uses, and instantiated at IEEE binary64 ([PrimFloat], what Python
    runs) and at the rationals [Q] (exact arithmetic).  Statements that
    only depend on the shape of the computation are proved for every
    instance; statements that need laws of arithmetic say which. *)

From Stdlib Require Import ZArith QArith Qabs Lia.
From Stdlib Require Import Floats.
From stdpp Require Import gmap strings list pretty.


(** ** Exceptions and results *)

(** The exceptions of the engine: [network[...]] on a missing key, [/] on a
    zero divisor, a list index out of range, and an object that is not of
    the kind an operation expects. *)
Inductive exn : Type :=
  | KeyError (key : string)
  | ZeroDivisionError
  | IndexError
  | TypeError.

Inductive result (A : Type) : Type :=
  | Ok (a : A)
  | Raise (e : exn).
Arguments Ok {A} a.
Arguments Raise {A} e.

#[global] Instance result_ret : MRet result := λ A a, Ok a.
#[global] Instance result_bind : MBind result := λ A B f r,
  match r with
  | Ok a => f a
  | Raise e => Raise e
  end.

Definition is_ok {A} (r : result A) : bool :=
  match r with Ok _ => true | Raise _ => false end.

(** ** Arithmetic of the source *)

Class Arith (num : Type) : Type := {
  zero : num;
  sixty : num;                      (* the literal 60.0 *)
  add : num → num → num;            (* x + y *)
  sub : num → num → num;            (* x - y *)
  mul : num → num → num;            (* x * y *)
  quot : num → num → num;           (* x / y when y is not zero *)
  absv : num → num;                 (* abs(x) *)
  is_zero : num → bool;             (* y == 0 *)
  le : num → num → Prop;            (* x <= y *)
  lt : num → num → Prop;            (* x < y *)
}.

(** Python's [x / y]: a zero divisor raises. *)
Definition truediv {num : Type} `{!Arith num} (x y : num) : result num :=
  if is_zero y then Raise ZeroDivisionError else Ok (quot x y).

(** IEEE binary64, the arithmetic Python executes. *)
#[global] Instance float_arith : Arith PrimFloat.float := {|
  zero := 0%float;
  sixty := 60%float;
  add := PrimFloat.add;
  sub := PrimFloat.sub;
  mul := PrimFloat.mul;
  quot := PrimFloat.div;
  absv := PrimFloat.abs;
  is_zero := λ y, PrimFloat.eqb y 0%float;
  le := λ x y, PrimFloat.leb x y = true;
  lt := λ x y, PrimFloat.ltb x y = true;
|}.

(** Exact rational arithmetic. *)
#[global] Instance Q_arith : Arith Q := {|
  zero := 0%Q;
  sixty := 60%Q;
  add := Qplus;
  sub := Qminus;
  mul := Qmult;
  quot := Qdiv;
  absv := Qabs;
  is_zero := λ y, Qeq_bool y 0%Q;
  le := Qle;
  lt := Qlt;
|}.

(** ** Data model *)

Section Engine.
Context {num : Type} `{!Arith num}.

Record Stop : Type := mkStop {
  name : string;
  dwell_time : num;
}.

Record Timetable : Type := mkTimetable {
  stops : list Stop;
  departure_station : string;
  departure_time : num;
}.

Record Position : Type := mkPosition {
  time : num;
  location : num;
}.

(** [network[station]] *)
Definition getitem (network : gmap string num) (station : string) : result num :=
  match network !! station with
  | Some x => Ok x
  | None => Raise (KeyError station)
  end.

(** ** The engine *)

(** The variables the loop of [get_train_movement] updates. *)
Record loop_state : Type := mkState {
  current_time : num;
  current_location : num;
  movement : list Position;
}.

(** One iteration of the loop, for [destination_stop = timetable.stops[i]]. *)
Definition loop_body (velocity : num) (network : gmap string num)
    (destination_stop : Stop) (st : loop_state) : result loop_state :=
  let destination_station := name destination_stop in
  let destination_dwell := dwell_time destination_stop in
  destination_location ← getitem network destination_station;
  let journey_distance := absv (sub destination_location (current_location st)) in
  q ← truediv journey_distance velocity;
  let arrival_time := add (current_time st) (mul q sixty) in
  let st1 := {| current_time := arrival_time;
                current_location := destination_location;
                movement := movement st ++ [mkPosition arrival_time destination_location] |} in
  let departing := add (current_time st1) destination_dwell in
  mret {| current_time := departing;
          current_location := current_location st1;
          movement := movement st1 ++ [mkPosition departing (current_location st1)] |}.

(** [for i in range(i, i + n)]: [route[i]] is read by index. *)
Fixpoint range_loop (velocity : num) (network : gmap string num)
    (route : list Stop) (n i : nat) (st : loop_state) : result loop_state :=
  match n with
  | O => mret st
  | S n' =>
    match route !! i with
    | None => Raise IndexError
    | Some destination_stop =>
      st' ← loop_body velocity network destination_stop st;
      range_loop velocity network route n' (S i) st'
    end
  end.

Definition get_train_movement (timetable : Timetable) (velocity : num)
    (network : gmap string num) : result (list Position) :=
  let departure_station := departure_station timetable in
  let current_time := departure_time timetable in
  current_location ← getitem network departure_station;
  let st0 := {| current_time := current_time;
                current_location := current_location;
                movement := [] ++ [mkPosition current_time current_location] |} in
  st ← range_loop velocity network (stops timetable) (length (stops timetable)) 0 st0;
  mret (movement st).

(** *** The loop without its index

    [iterate_stops] visits the stops of the route in order; [legs] lists
    the samples the visits append, starting from time [t] at location [x].
    Both raise what the loop raises, in the loop's order. *)

Fixpoint iterate_stops (velocity : num) (network : gmap string num)
    (route : list Stop) (st : loop_state) : result loop_state :=
  match route with
  | [] => mret st
  | destination_stop :: rest =>
    st' ← loop_body velocity network destination_stop st;
    iterate_stops velocity network rest st'
  end.

Fixpoint legs (velocity : num) (network : gmap string num)
    (t x : num) (route : list Stop) : result (list Position) :=
  match route with
  | [] => mret []
  | destination_stop :: rest =>
    destination_location ← getitem network (name destination_stop);
    q ← truediv (absv (sub destination_location x)) velocity;
    let arrival_time := add t (mul q sixty) in
    let departing := add arrival_time (dwell_time destination_stop) in
    tl ← legs velocity network departing destination_location rest;
    mret (mkPosition arrival_time destination_location
          :: mkPosition departing destination_location :: tl)
  end.

(** Every station the timetable names is a key of the network. *)
Definition resolvable (network : gmap string num) (timetable : Timetable) : Prop :=
  is_Some (network !! departure_station timetable) ∧
  Forall (λ s, is_Some (network !! name s)) (stops timetable).

(** Sample times never go back. *)
Definition non_decreasing (m : list Position) : Prop :=
  ∀ (i j : nat) a b, i ≤ j → m !! i = Some a → m !! j = Some b → le (time a) (time b).

End Engine.

Arguments Stop num : clear implicits.
Arguments Timetable num : clear implicits.
Arguments Position num : clear implicits.
Arguments loop_state num : clear implicits.

(** ** The engine on a store of objects

    Python passes the timetable, its list of stops, the stops and the
    network by reference, and [movement] is a list object that
    [movement.append] updates in place.  This second embedding keeps the
    objects in a store, addressed by their position in it, next to the
    lines written to the standard output.  Numbers and strings are
    immutable values and sit inside the objects. *)

Section Store.
Context {num : Type} `{!Arith num}.

Inductive obj : Type :=
  | OStop (name : string) (dwell_time : num)
  | OTimetable (stops : nat) (departure_station : string) (departure_time : num)
  | OPosition (time location : num)
  | OList (items : list nat)
  | ODict (entries : gmap string num).

Record world : Type := mkWorld {
  heap : list obj;
  output : list string;
}.

(** A computation reads and updates the world and returns or raises. *)
Definition prog (A : Type) : Type := world → result A * world.

#[global] Instance prog_ret : MRet prog := λ A a w, (Ok a, w).
#[global] Instance prog_bind : MBind prog := λ A B f c w,
  match c w with
  | (Ok a, w') => f a w'
  | (Raise e, w') => (Raise e, w')
  end.

Definition raise {A} (e : exn) : prog A := λ w, (Raise e, w).
Definition lift {A} (r : result A) : prog A := λ w, (r, w).

(** A new object gets the next free address. *)
Definition alloc (o : obj) : prog nat := λ w,
  (Ok (length (heap w)), mkWorld (heap w ++ [o]) (output w)).

Definition load (a : nat) : prog obj := λ w,
  match heap w !! a with
  | Some o => (Ok o, w)
  | None => (Raise TypeError, w)
  end.

Definition store (a : nat) (o : obj) : prog unit := λ w,
  (Ok (), mkWorld (<[a:=o]> (heap w)) (output w)).

(** [print(line)], as [export_movements_to_csv] does; the engine has none. *)
Definition print (line : string) : prog unit := λ w,
  (Ok (), mkWorld (heap w) (output w ++ [line])).

(** Attribute reads. *)
Definition attr_stops (timetable : nat) : prog nat :=
  o ← load timetable;
  match o with OTimetable s _ _ => mret s | _ => raise TypeError end.

Definition attr_departure_station (timetable : nat) : prog string :=
  o ← load timetable;
  match o with OTimetable _ s _ => mret s | _ => raise TypeError end.

Definition attr_departure_time (timetable : nat) : prog num :=
  o ← load timetable;
  match o with OTimetable _ _ t => mret t | _ => raise TypeError end.

Definition attr_name (stop : nat) : prog string :=
  o ← load stop;
  match o with OStop n _ => mret n | _ => raise TypeError end.

Definition attr_dwell_time (stop : nat) : prog num :=
  o ← load stop;
  match o with OStop _ d => mret d | _ => raise TypeError end.

(** [len(l)], [l[i]] and [l.append(x)] on a list object; [d[k]] on a dict. *)
Definition list_len (l : nat) : prog nat :=
  o ← load l;
  match o with OList items => mret (length items) | _ => raise TypeError end.

Definition list_getitem (l i : nat) : prog nat :=
  o ← load l;
  match o with
  | OList items =>
    match items !! i with Some a => mret a | None => raise IndexError end
  | _ => raise TypeError
  end.

Definition list_append (l x : nat) : prog unit :=
  o ← load l;
  match o with
  | OList items => store l (OList (items ++ [x]))
  | _ => raise TypeError
  end.

Definition dict_getitem (d : nat) (k : string) : prog num :=
  o ← load d;
  match o with ODict entries => lift (getitem entries k) | _ => raise TypeError end.

(** [movement.append(Position(t, x))] *)
Definition append_position (movement : nat) (t x : num) : prog unit :=
  p ← alloc (OPosition t x);
  list_append movement p.

Definition loop_body_obj (timetable : nat) (velocity : num) (network movement : nat)
    (i : nat) (cur : num * num) : prog (num * num) :=
  let current_time := cur.1 in
  let current_location := cur.2 in
  route ← attr_stops timetable;
  destination_stop ← list_getitem route i;
  destination_station ← attr_name destination_stop;
  destination_dwell ← attr_dwell_time destination_stop;
  destination_location ← dict_getitem network destination_station;
  let journey_distance := absv (sub destination_location current_location) in
  q ← lift (truediv journey_distance velocity);
  let arrival_time := add current_time (mul q sixty) in
  append_position movement arrival_time destination_location;;
  let departing := add arrival_time destination_dwell in
  append_position movement departing destination_location;;
  mret (departing, destination_location).

Fixpoint range_loop_obj (timetable : nat) (velocity : num) (network movement : nat)
    (n i : nat) (cur : num * num) : prog (num * num) :=
  match n with
  | O => mret cur
  | S n' =>
    cur' ← loop_body_obj timetable velocity network movement i cur;
    range_loop_obj timetable velocity network movement n' (S i) cur'
  end.

Definition get_train_movement_obj (timetable : nat) (velocity : num) (network : nat)
    : prog nat :=
  movement ← alloc (OList []);
  departure_station ← attr_departure_station timetable;
  current_time ← attr_departure_time timetable;
  current_location ← dict_getitem network departure_station;
  append_position movement current_time current_location;;
  route ← attr_stops timetable;
  n ← list_len route;
  range_loop_obj timetable velocity network movement n 0
    (current_time, current_location);;
  mret movement.

(** *** Reading values back from the store *)

Definition position_obj (p : Position num) : obj :=
  OPosition (time p) (location p).

Definition read_stop (h : list obj) (a : nat) : option (Stop num) :=
  match h !! a with
  | Some (OStop n d) => Some (mkStop n d)
  | _ => None
  end.

Definition read_position (h : list obj) (a : nat) : option (Position num) :=
  match h !! a with
  | Some (OPosition t x) => Some (mkPosition t x)
  | _ => None
  end.

Definition read_movement (h : list obj) (a : nat) : option (list (Position num)) :=
  match h !! a with
  | Some (OList items) => mapM (read_position h) items
  | _ => None
  end.

(** The store [h] holds [timetable] at address [ta] and [network] at [na]. *)
Definition represents (h : list obj) (ta na : nat)
    (timetable : Timetable num) (network : gmap string num) : Prop :=
  ∃ route items,
    h !! ta = Some (OTimetable route (departure_station timetable)
                               (departure_time timetable)) ∧
    h !! route = Some (OList items) ∧
    mapM (read_stop h) items = Some (stops timetable) ∧
    h !! na = Some (ODict network).

(** The store after the engine has built the samples [m] on top of the
    caller's store [h0]: the list object, then one [Position] per sample. *)
Definition built (h0 : list obj) (m : list (Position num)) : list obj :=
  h0 ++ OList (seq (S (length h0)) (length m)) :: map position_obj m.

(** After the list of samples is allocated, the rest of the engine. *)
Definition engine_rest (timetable : nat) (velocity : num) (network movement : nat)
    : prog nat :=
  departure_station ← attr_departure_station timetable;
  current_time ← attr_departure_time timetable;
  current_location ← dict_getitem network departure_station;
  append_position movement current_time current_location;;
  route ← attr_stops timetable;
  n ← list_len route;
  range_loop_obj timetable velocity network movement n 0
    (current_time, current_location);;
  mret movement.

(** A computation is [tidy] over the caller's store [h0] when, started on a
    store the engine has built on [h0], it ends on such a store, with more
    samples at most, and writes no output. *)
Definition tidy (h0 : list obj) {A} (c : prog A) : Prop :=
  ∀ w m, heap w = built h0 m →
    ∃ m', heap (c w).2 = built h0 (m ++ m') ∧ output (c w).2 = output w.

(** What a caller can observe of the effect of a call that took the world
    from [w] to [w'] and returned [r]. *)
Definition unchanged (w w' : world) : Prop :=
  ∀ a o, heap w !! a = Some o → heap w' !! a = Some o.

Definition fresh (w : world) (a : nat) : Prop := length (heap w) ≤ a.

Definition new_positions (w w' : world) (a : nat) : Prop :=
  ∃ items,
    heap w' !! a = Some (OList items) ∧ NoDup items ∧
    Forall (λ p, fresh w p ∧ ∃ t x, heap w' !! p = Some (OPosition t x)) items.

End Store.

Arguments obj num : clear implicits.
Arguments world num : clear implicits.
Arguments prog num A : clear implicits.

(** ** The scenario of the specification, on binary64 *)

Definition abc_network : gmap string float :=
  {[ "A" := 0%float; "B" := 5%float; "C" := 10%float ]}.

Definition abc_timetable : Timetable float :=
  mkTimetable [mkStop "B" 2%float; mkStop "C" 0%float] "A" 0%float.

Definition abc_samples : list (Position float) :=
  [mkPosition 0%float 0%float; mkPosition 5%float 5%float;
   mkPosition 7%float 5%float; mkPosition 12%float 10%float;
   mkPosition 12%float 10%float].

(** The same scenario with a negative velocity. *)
Definition backwards_velocity : float := (-60)%float.

(** A route that doubles back: from A to C, then back to B. *)
Definition doubling_back : Timetable float :=
  mkTimetable [mkStop "C" 0%float; mkStop "B" 0%float] "A" 0%float.

(** A timetable that calls at a station the network lacks. *)
Definition doubling_back_samples : list (Position float) :=
  [mkPosition 0%float 0%float; mkPosition 10%float 10%float;
   mkPosition 10%float 10%float; mkPosition 15%float 5%float;
   mkPosition 15%float 5%float].

Definition off_the_map : Timetable float :=
  mkTimetable [mkStop "B" 2%float; mkStop "Z" 0%float] "A" 0%float.

(** The scenario on the rationals. *)
Definition abc_network_Q : gmap string Q :=
  {[ "A" := 0%Q; "B" := 5%Q; "C" := 10%Q ]}.

Definition abc_timetable_Q : Timetable Q :=
  mkTimetable [mkStop "B" 2%Q; mkStop "C" 0%Q] "A" 0%Q.

Definition abc_samples_Q : list (Position Q) :=
  [mkPosition 0%Q 0%Q; mkPosition (300 # 60) 5%Q; mkPosition (420 # 60) 5%Q;
   mkPosition (43200 # 3600) 10%Q; mkPosition (43200 # 3600) 10%Q].

(** The scenario in a store: the network, the two stops, the list of stops
    and the timetable, at addresses 0 to 4. *)
Definition abc_world : world float :=
  mkWorld [ODict abc_network; OStop "B" 2%float; OStop "C" 0%float;
           OList [1; 2]; OTimetable 3 "A" 0%float] [].

(** ** The network builder and the three kinds of train *)

Definition build_network (spacing : float) : gmap string float :=
  {[ "A" := (0 * spacing)%float;
     "B" := (1 * spacing)%float;
     "C" := (2 * spacing)%float;
     "D" := (3 * spacing)%float;
     "E" := (4 * spacing)%float;
     "F" := (5 * spacing)%float;
     "G" := (6 * spacing)%float ]}.

Definition express_route : list (Stop float) :=
  let express_dwell := 7%float in
  [mkStop "D" express_dwell; mkStop "G" 0%float].

Definition get_express_movement (departure : float) (network : gmap string float)
    : result (list (Position float)) :=
  let express_velocity := 120%float in
  get_train_movement (mkTimetable express_route "A" departure)
    express_velocity network.

Definition local_route : list (Stop float) :=
  let local_dwell := 2.5%float in
  [mkStop "B" local_dwell; mkStop "C" local_dwell; mkStop "D" local_dwell;
   mkStop "E" local_dwell; mkStop "F" local_dwell; mkStop "G" 0%float].

Definition get_local_movement (departure : float) (network : gmap string float)
    : result (list (Position float)) :=
  let local_velocity := 80%float in
  get_train_movement (mkTimetable local_route "A" departure)
    local_velocity network.

(** [freight_dwell = 15.0] is assigned in the source and not used. *)
Definition freight_route : list (Stop float) :=
  [mkStop "G" 0%float].

Definition get_freight_movement (departure : float) (network : gmap string float)
    : result (list (Position float)) :=
  let freight_velocity := 60%float in
  get_train_movement (mkTimetable freight_route "A" departure)
    freight_velocity network.

(** The names of the stations of [build_network]. *)
Definition station_names : list string := ["A"; "B"; "C"; "D"; "E"; "F"; "G"].

(** ** The Victoria line of [run_figures] *)

(** The stations in the order the dictionary lists them, with their
    positions in km. *)
#[warnings="-inexact-float"]
Definition walthamstow_central_km : float := 27.33%float.

#[warnings="-inexact-float"]
Definition victoria_stations : list (string * float) :=
  [("Walthamstow Central", walthamstow_central_km);
   ("Blackhorse Road", 28.79%float);
   ("Tottenham Hale", 30.15%float);
   ("Seven Sisters", 31.19%float);
   ("Finsbury Park", 34.34%float);
   ("Highbury and Islington", 36.29%float);
   ("Kings Cross St Pancras", 38.72%float);
   ("Euston", 39.47%float);
   ("Warren Street", 40.22%float);
   ("Oxford Circus", 41.14%float);
   ("Green Park", 42.23%float);
   ("Victoria", 43.35%float);
   ("Pimlico", 44.57%float);
   ("Vauxhall", 45.37%float);
   ("Stockwell", 47.13%float);
   ("Brixton", 48.61%float)].

Definition victoria_network : gmap string float := list_to_map victoria_stations.

(** [for station in victoria_network: metro_route.append(Stop(station, 1))] *)
Definition metro_route : list (Stop float) :=
  (λ station, mkStop station.1 1%float) <$> victoria_stations.

Definition metro_timetable (departure_time : float) : Timetable float :=
  mkTimetable metro_route "Walthamstow Central" departure_time.

(** [i * (60 / tph)] with [tph = 30] *)
Definition metro_departure (i : nat) : float :=
  (PrimFloat.of_uint63 (Uint63.of_Z (Z.of_nat i)) * (60 / 30))%float.

(** The trains of [run_figures], each with its label [f"Metro {str(i)}"]. *)
Definition metro_movements : list (string * result (list (Position float))) :=
  (λ i, ("Metro " +:+ pretty i,
         get_train_movement (metro_timetable (metro_departure i)) 50%float
           victoria_network)) <$> seq 0 15.

(** ** Binary64 values

    What the statements on the order of the sample times say about the
    numbers of the engine, read through [Prim2SF], the specification of
    binary64 of the standard library. *)

(** A zero, a finite number or an infinity of sign [s]. *)
Definition signed (s : bool) (r : spec_float) : Prop :=
  match r with
  | S754_zero s' | S754_infinity s' | S754_finite s' _ _ => s' = s
  | S754_nan => False
  end.

(** A time the engine can hold: a number, not minus infinity. *)
Definition good_time (x : spec_float) : Prop :=
  match x with
  | S754_nan | S754_infinity true => False
  | _ => True
  end.

(** Zero of either sign, a positive number or plus infinity. *)
Definition nonneg (y : spec_float) : Prop :=
  match y with
  | S754_zero _ | S754_finite false _ _ | S754_infinity false => True
  | _ => False
  end.

(** A zero or a finite number: no NaN, no infinity. *)
Definition finite_sf (x : spec_float) : Prop :=
  match x with
  | S754_zero _ | S754_finite _ _ _ => True
  | _ => False
  end.

Definition finite64 (x : float) : Prop := finite_sf (Prim2SF x).

(** What [binary_round_aux] returns for the mantissa [m] and the exponent
    [e] it ends with. *)
Definition finish (s : bool) (m e : Z) : spec_float :=
  match m with
  | Z0 => S754_zero s
  | Zpos p => if (e <=? 971)%Z then S754_finite s p e else S754_infinity s
  | Zneg _ => S754_nan
  end.

(** A journey whose first stop is the station it leaves from. *)
Definition from_a_via_a : Timetable float :=
  mkTimetable [mkStop "A" 1%float; mkStop "B" 1%float] "A" 0%float.

Definition from_a_via_a_samples : list (Position float) :=
  [mkPosition 0%float 0%float; mkPosition 0%float 0%float;
   mkPosition 1%float 0%float; mkPosition 6%float 5%float;
   mkPosition 7%float 5%float].

(** The scenario of the specification leaving at a time that is not a
    number. *)
Definition nan_timetable : Timetable float :=
  mkTimetable [mkStop "B" 2%float; mkStop "C" 0%float] "A" nan.

(** * Properties of the engine *)

Section EngineFacts.
Context {num : Type} `{!Arith num}.
Implicit Types (network : gmap string num) (velocity t x : num).
Implicit Types (route : list (Stop num)) (st : loop_state num).
Implicit Types (m tl : list (Position num)) (timetable : Timetable num).

Lemma Ok_bind {A B} (a : A) (f : A → result B) : Ok a ≫= f = f a.
Proof. reflexivity. Qed.

Lemma Raise_bind {A B} (e : exn) (f : A → result B) : Raise e ≫= f = Raise e.
Proof. reflexivity. Qed.

Lemma bind_Ok {A B} (r : result A) (f : A → result B) (b : B) :
  r ≫= f = Ok b ↔ ∃ a, r = Ok a ∧ f a = Ok b.
Proof.
  destruct r as [a|e]; simpl; split.
  - intros Hf. exists a. auto.
  - intros (a' & [= <-] & Hf). exact Hf.
  - discriminate.
  - intros (a' & Ha & _). discriminate.
Qed.

Lemma bind_Raise {A B} (r : result A) (f : A → result B) (e : exn) :
  r ≫= f = Raise e ↔ r = Raise e ∨ ∃ a, r = Ok a ∧ f a = Raise e.
Proof.
  destruct r as [a|e']; simpl; split.
  - intros Hf. right. exists a. auto.
  - intros [Hr | (a' & [= <-] & Hf)]; [discriminate | exact Hf].
  - intros [= <-]. left. reflexivity.
  - intros [[= ->] | (a' & Ha & _)]; [reflexivity | discriminate].
Qed.

(** The index loop over [range(len(route))] visits the stops in order and
    never raises [IndexError]. *)
Lemma range_loop_drop velocity network route i st :
  range_loop velocity network route (length route - i) i st =
  iterate_stops velocity network (drop i route) st.
Proof.
  remember (length route - i) as n eqn:Hn.
  revert i st Hn. induction n as [|n IH]; intros i st Hn; simpl.
  - rewrite drop_ge by lia. reflexivity.
  - destruct (route !! i) as [s|] eqn:Hi.
    + rewrite (drop_S _ _ _ Hi). simpl.
      destruct (loop_body velocity network s st) as [st'|e]; simpl; [|reflexivity].
      apply IH. lia.
    + apply lookup_ge_None in Hi. lia.
Qed.

Lemma range_loop_iterate velocity network route st :
  range_loop velocity network route (length route) 0 st =
  iterate_stops velocity network route st.
Proof.
  rewrite <- (Nat.sub_0_r (length route)) at 1.
  rewrite range_loop_drop. reflexivity.
Qed.

Lemma iterate_stops_legs velocity network route st :
  iterate_stops velocity network route st ≫= (λ st', mret (movement st')) =
  legs velocity network (current_time st) (current_location st) route
    ≫= (λ tl, mret (movement st ++ tl)).
Proof.
  revert st. induction route as [|s rest IH]; intros st; simpl.
  - rewrite app_nil_r. reflexivity.
  - unfold loop_body.
    destruct (getitem network (name s)) as [d|e]; simpl; [|reflexivity].
    destruct (truediv _ velocity) as [q|e]; simpl; [|reflexivity].
    rewrite IH. simpl.
    destruct (legs velocity network _ d rest) as [tl|e]; simpl; [|reflexivity].
    rewrite <- !app_assoc. reflexivity.
Qed.

(** The engine is: the departure sample, followed by the legs. *)
Lemma get_train_movement_legs timetable velocity network :
  get_train_movement timetable velocity network =
  x0 ← getitem network (departure_station timetable);
  tl ← legs velocity network (departure_time timetable) x0 (stops timetable);
  mret (mkPosition (departure_time timetable) x0 :: tl).
Proof.
  unfold get_train_movement.
  destruct (getitem network _) as [x0|e]; simpl; [|reflexivity].
  rewrite range_loop_iterate.
  apply (iterate_stops_legs velocity network (stops timetable)
           (mkState (departure_time timetable) x0
                    [mkPosition (departure_time timetable) x0])).
Qed.

Lemma getitem_Ok network k x : getitem network k = Ok x ↔ network !! k = Some x.
Proof. unfold getitem. destruct (network !! k); split; congruence. Qed.

Lemma getitem_Raise network k e :
  getitem network k = Raise e ↔ network !! k = None ∧ e = KeyError k.
Proof.
  unfold getitem. destruct (network !! k); split;
    [discriminate | intros [? _]; discriminate
    | intros [= <-]; auto | intros [_ ->]; reflexivity].
Qed.

Lemma truediv_Ok (a velocity q : num) :
  truediv a velocity = Ok q ↔ is_zero velocity = false ∧ q = quot a velocity.
Proof.
  unfold truediv. destruct (is_zero velocity); split;
    [discriminate | intros [? _]; discriminate
    | intros [= <-]; auto | intros [_ ->]; reflexivity].
Qed.

(** Unfolding one successful leg. *)
Lemma legs_cons_Ok velocity network t x s rest tl :
  legs velocity network t x (s :: rest) = Ok tl ↔
  ∃ d tl',
    network !! name s = Some d ∧ is_zero velocity = false ∧
    let arrival_time := add t (mul (quot (absv (sub d x)) velocity) sixty) in
    let departing := add arrival_time (dwell_time s) in
    legs velocity network departing d rest = Ok tl' ∧
    tl = mkPosition arrival_time d :: mkPosition departing d :: tl'.
Proof.
  simpl. split.
  - intros Hl.
    apply bind_Ok in Hl as (d & Hd%getitem_Ok & Hl).
    apply bind_Ok in Hl as (q & [Hv ->]%truediv_Ok & Hl).
    apply bind_Ok in Hl as (tl' & Htl' & [= <-]).
    exists d, tl'. auto.
  - intros (d & tl' & Hd & Hv & Htl' & ->).
    apply getitem_Ok in Hd. rewrite Hd. simpl.
    unfold truediv. rewrite Hv. simpl. rewrite Htl'. reflexivity.
Qed.

Lemma legs_length velocity network t x route tl :
  legs velocity network t x route = Ok tl → length tl = 2 * length route.
Proof.
  revert t x tl. induction route as [|s rest IH]; intros t x tl.
  - intros [= <-]. reflexivity.
  - intros (d & tl' & _ & _ & Htl' & ->)%legs_cons_Ok.
    apply IH in Htl'. simpl. lia.
Qed.

(** The legs are all computed when the stations resolve and the velocity
    is a valid divisor. *)
Lemma legs_returns velocity network t x route :
  Forall (λ s, is_Some (network !! name s)) route →
  is_zero velocity = false →
  ∃ tl, legs velocity network t x route = Ok tl.
Proof.
  intros Hres Hv. revert t x.
  induction Hres as [|s rest [d Hd] _ IH]; intros t x.
  - exists []. reflexivity.
  - destruct (IH (add (add t (mul (quot (absv (sub d x)) velocity) sixty))
                     (dwell_time s)) d) as [tl' Htl'].
    eexists. apply legs_cons_Ok. exists d, tl'. simpl. eauto.
Qed.

(** The two samples of the [k]-th stop, read from the list that starts with
    the sample the journey leaves from. *)
Lemma legs_lookup velocity network t x route tl k s :
  legs velocity network t x route = Ok tl →
  route !! k = Some s →
  ∃ d prev,
    network !! name s = Some d ∧
    (mkPosition t x :: tl) !! (2 * k) = Some prev ∧
    let arrival_time :=
      add (time prev) (mul (quot (absv (sub d (location prev))) velocity) sixty) in
    (mkPosition t x :: tl) !! (2 * k + 1) = Some (mkPosition arrival_time d) ∧
    (mkPosition t x :: tl) !! (2 * k + 2) =
      Some (mkPosition (add arrival_time (dwell_time s)) d).
Proof.
  revert t x tl k. induction route as [|s' rest IH]; intros t x tl k Hl Hk.
  - destruct k; discriminate.
  - apply legs_cons_Ok in Hl as (d & tl' & Hd & _ & Htl' & ->).
    destruct k as [|k]; simpl in Hk.
    + injection Hk as ->. exists d, (mkPosition t x). simpl. auto.
    + destruct (IH _ _ _ _ Htl' Hk) as (d' & prev & Hd' & Hprev & Harr & Hdep).
      exists d', prev. split; [exact Hd'|].
      replace (2 * S k) with (S (S (2 * k))) by lia.
      simpl. auto.
Qed.

Lemma legs_Ok_resolves velocity network t x route tl :
  legs velocity network t x route = Ok tl →
  Forall (λ s, is_Some (network !! name s)) route ∧
  (route ≠ [] → is_zero velocity = false).
Proof.
  revert t x tl. induction route as [|s rest IH]; intros t x tl Hl.
  - split; [constructor | congruence].
  - apply legs_cons_Ok in Hl as (d & tl' & Hd & Hv & Htl' & _).
    split; [|auto]. constructor; [eauto | exact (proj1 (IH _ _ _ Htl'))].
Qed.

Lemma legs_locations velocity network t x route tl p :
  legs velocity network t x route = Ok tl →
  p ∈ tl →
  ∃ s, s ∈ route ∧ network !! name s = Some (location p).
Proof.
  revert t x tl. induction route as [|s rest IH]; intros t x tl Hl Hp.
  - injection Hl as <-. inversion Hp.
  - apply legs_cons_Ok in Hl as (d & tl' & Hd & _ & Htl' & ->).
    apply elem_of_cons in Hp as [-> | Hp]; [exists s; split; [left | exact Hd]|].
    apply elem_of_cons in Hp as [-> | Hp]; [exists s; split; [left | exact Hd]|].
    destruct (IH _ _ _ Htl' Hp) as (s' & Hs' & Hloc).
    exists s'. split; [right; exact Hs' | exact Hloc].
Qed.

(** With a valid divisor, the first stop whose station is missing decides
    the outcome: its [KeyError]. *)
Lemma legs_unknown_station velocity network t x route :
  Exists (λ s, network !! name s = None) route →
  is_zero velocity = false →
  ∃ s, s ∈ route ∧ network !! name s = None ∧
       legs velocity network t x route = Raise (KeyError (name s)).
Proof.
  intros Hex Hv. revert t x.
  induction route as [|s rest IH]; intros t x; [inversion Hex|].
  destruct (network !! name s) as [d|] eqn:Hd.
  - apply Exists_cons in Hex as [Hs | Hrest]; [congruence|].
    destruct (IH Hrest (add (add t (mul (quot (absv (sub d x)) velocity) sixty))
                            (dwell_time s)) d) as (s' & Hs' & Hnone & Hraise).
    exists s'. split; [right; exact Hs'|]. split; [exact Hnone|].
    simpl. unfold getitem. rewrite Hd. simpl.
    unfold truediv. rewrite Hv. simpl. rewrite Hraise. reflexivity.
  - exists s. split; [left|]. split; [exact Hd|].
    simpl. unfold getitem. rewrite Hd. reflexivity.
Qed.

(** ** The claims *)

(** C1. When the departure station is a key of the network, a returned
    trajectory is non-empty and its first sample is the departure time at
    the network's coordinate of the departure station. *)
Theorem first_sample_is_departure timetable velocity network x0 m :
  network !! departure_station timetable = Some x0 →
  get_train_movement timetable velocity network = Ok m →
  m ≠ [] ∧ m !! 0 = Some (mkPosition (departure_time timetable) x0).
Proof.
  intros Hx0 Hm. rewrite get_train_movement_legs in Hm.
  apply bind_Ok in Hm as (x0' & Hx0'%getitem_Ok & Hm).
  apply bind_Ok in Hm as (tl & _ & [= <-]).
  assert (x0' = x0) as -> by congruence.
  split; [discriminate | reflexivity].
Qed.

(** C2. With every station resolvable and a route of [R] stops, a returned
    trajectory has exactly [1 + 2R] samples; one is returned whenever the
    velocity is a valid divisor or the route is empty; and the empty route
    gives the single departure sample. *)
Theorem trajectory_length timetable velocity network :
  resolvable network timetable →
  (∀ m, get_train_movement timetable velocity network = Ok m →
        length m = 1 + 2 * length (stops timetable)) ∧
  (is_zero velocity = false ∨ stops timetable = [] →
   ∃ m, get_train_movement timetable velocity network = Ok m ∧
        length m = 1 + 2 * length (stops timetable)) ∧
  (stops timetable = [] →
   ∃ x0, network !! departure_station timetable = Some x0 ∧
         get_train_movement timetable velocity network =
         Ok [mkPosition (departure_time timetable) x0]).
Proof.
  intros [[x0 Hx0] Hres].
  assert (Hlen : ∀ m, get_train_movement timetable velocity network = Ok m →
                      length m = 1 + 2 * length (stops timetable)).
  { intros m Hm. rewrite get_train_movement_legs in Hm.
    apply bind_Ok in Hm as (x0' & _ & Hm).
    apply bind_Ok in Hm as (tl & Htl%legs_length & [= <-]).
    simpl. lia. }
  assert (Hnil : stops timetable = [] →
                 get_train_movement timetable velocity network =
                 Ok [mkPosition (departure_time timetable) x0]).
  { intros Hs. rewrite get_train_movement_legs.
    apply getitem_Ok in Hx0. rewrite Hx0, Hs. reflexivity. }
  split; [exact Hlen|]. split.
  - intros [Hv | Hs].
    + destruct (legs_returns velocity network (departure_time timetable) x0
                  (stops timetable) Hres Hv) as [tl Htl].
      assert (Hm : get_train_movement timetable velocity network =
                   Ok (mkPosition (departure_time timetable) x0 :: tl)).
      { rewrite get_train_movement_legs.
        apply getitem_Ok in Hx0. rewrite Hx0. simpl. rewrite Htl. reflexivity. }
      eexists. split; [exact Hm | exact (Hlen _ Hm)].
    + eexists. split; [exact (Hnil Hs) | exact (Hlen _ (Hnil Hs))].
  - intros Hs. exists x0. split; [exact Hx0 | exact (Hnil Hs)].
Qed.

(** C3. For the [k]-th stop of the route, the arrival sample (index [2k+1])
    is at the coordinate [d] of the stop's station, at the time of the
    previous sample (index [2k]) plus [abs(d - previous location) / velocity
    * 60].  No order between the two locations is assumed: a leg that goes
    back is computed like one that goes forward, and where
    [abs(a - b) = abs(b - a)] the time is that of the opposite leg. *)
Theorem arrival_sample timetable velocity network m k s :
  get_train_movement timetable velocity network = Ok m →
  stops timetable !! k = Some s →
  ∃ d prev,
    network !! name s = Some d ∧
    m !! (2 * k) = Some prev ∧
    m !! (2 * k + 1) =
      Some (mkPosition
              (add (time prev)
                   (mul (quot (absv (sub d (location prev))) velocity) sixty))
              d) ∧
    ((∀ a b : num, absv (sub a b) = absv (sub b a)) →
     m !! (2 * k + 1) =
       Some (mkPosition
               (add (time prev)
                    (mul (quot (absv (sub (location prev) d)) velocity) sixty))
               d)).
Proof.
  intros Hm Hk. rewrite get_train_movement_legs in Hm.
  apply bind_Ok in Hm as (x0 & _ & Hm).
  apply bind_Ok in Hm as (tl & Htl & [= <-]).
  destruct (legs_lookup _ _ _ _ _ _ _ _ Htl Hk)
    as (d & prev & Hd & Hprev & Harr & _).
  exists d, prev. split; [exact Hd|]. split; [exact Hprev|].
  split; [exact Harr|].
  intros Hswap. rewrite <- (Hswap d (location prev)). exact Harr.
Qed.


(** C10. Every sample of a returned trajectory is located at the network's
    coordinate of the departure station or of some stop of the route. *)
Theorem samples_at_stations timetable velocity network m p :
  get_train_movement timetable velocity network = Ok m →
  p ∈ m →
  network !! departure_station timetable = Some (location p) ∨
  ∃ s, s ∈ stops timetable ∧ network !! name s = Some (location p).
Proof.
  intros Hm Hp. rewrite get_train_movement_legs in Hm.
  apply bind_Ok in Hm as (x0 & Hx0%getitem_Ok & Hm).
  apply bind_Ok in Hm as (tl & Htl & [= <-]).
  apply elem_of_cons in Hp as [-> | Hp]; [left; exact Hx0|].
  right. exact (legs_locations _ _ _ _ _ _ _ Htl Hp).
Qed.

(** C6. When the departure station or the station of some stop is not a key
    of the network, the engine raises and returns no trajectory, partial or
    other; a missing departure station raises [KeyError] at once; and with a
    velocity that is a valid divisor the exception is the [KeyError] of a
    station the network lacks.  ([KeyError] is what [network[...]] raises:
    the code's unknown-station error.) *)
Theorem unknown_station_aborts timetable velocity network :
  network !! departure_station timetable = None ∨
  Exists (λ s, network !! name s = None) (stops timetable) →
  is_ok (get_train_movement timetable velocity network) = false ∧
  (network !! departure_station timetable = None →
   get_train_movement timetable velocity network =
   Raise (KeyError (departure_station timetable))) ∧
  (is_zero velocity = false →
   ∃ k, network !! k = None ∧
        (k = departure_station timetable ∨ ∃ s, s ∈ stops timetable ∧ k = name s) ∧
        get_train_movement timetable velocity network = Raise (KeyError k)).
Proof.
  intros Habsent.
  assert (Hdep : network !! departure_station timetable = None →
                 get_train_movement timetable velocity network =
                 Raise (KeyError (departure_station timetable))).
  { intros Hnone. rewrite get_train_movement_legs.
    unfold getitem. rewrite Hnone. reflexivity. }
  split; [|split].
  - destruct (get_train_movement timetable velocity network) as [m|e] eqn:Hm;
      [exfalso | reflexivity].
    rewrite get_train_movement_legs in Hm.
    apply bind_Ok in Hm as (x0 & Hx0%getitem_Ok & Hm).
    apply bind_Ok in Hm as (tl & [Hres _]%legs_Ok_resolves & _).
    destruct Habsent as [Hnone | Hex]; [congruence|].
    apply Exists_exists in Hex as (s & Hs & Hnone).
    rewrite Forall_forall in Hres. destruct (Hres s Hs) as [d Hd]. congruence.
  - exact Hdep.
  - intros Hv.
    destruct (network !! departure_station timetable) as [x0|] eqn:Hx0.
    + destruct Habsent as [Hnone | Hex]; [discriminate|].
      destruct (legs_unknown_station velocity network (departure_time timetable)
                  x0 (stops timetable) Hex Hv) as (s & Hs & Hnone & Hraise).
      exists (name s). split; [exact Hnone|]. split; [right; eauto|].
      rewrite get_train_movement_legs. unfold getitem. rewrite Hx0. simpl.
      rewrite Hraise. reflexivity.
    + exists (departure_station timetable). split; [exact Hx0|].
      split; [left; reflexivity | exact (Hdep eq_refl)].
Qed.

(** C5, as the code has it.  The engine does not look at the sign of the
    velocity.  A zero velocity makes the division of the first leg raise
    [ZeroDivisionError], and nothing is returned; with an empty route there
    is no division and the departure sample is returned for any velocity;
    every non-zero velocity, negative ones too, gives the whole trajectory
    once the stations resolve. *)
Theorem velocity_is_only_a_divisor timetable velocity network x0 :
  network !! departure_station timetable = Some x0 →
  (∀ s rest, stops timetable = s :: rest → is_Some (network !! name s) →
             is_zero velocity = true →
             get_train_movement timetable velocity network = Raise ZeroDivisionError) ∧
  (stops timetable = [] →
   get_train_movement timetable velocity network =
   Ok [mkPosition (departure_time timetable) x0]) ∧
  (Forall (λ s, is_Some (network !! name s)) (stops timetable) →
   is_zero velocity = false →
   ∃ m, get_train_movement timetable velocity network = Ok m ∧
        length m = 1 + 2 * length (stops timetable)).
Proof.
  intros Hx0. apply getitem_Ok in Hx0.
  split; [|split].
  - intros s rest Hs [d Hd] Hv.
    rewrite get_train_movement_legs, Hx0, Hs. simpl.
    apply getitem_Ok in Hd. rewrite Hd. simpl.
    unfold truediv. rewrite Hv. reflexivity.
  - intros Hs. rewrite get_train_movement_legs, Hx0, Hs. reflexivity.
  - intros Hres Hv.
    destruct (legs_returns velocity network (departure_time timetable) x0
                (stops timetable) Hres Hv) as [tl Htl].
    exists (mkPosition (departure_time timetable) x0 :: tl). split.
    + rewrite get_train_movement_legs, Hx0. simpl. rewrite Htl. reflexivity.
    + apply legs_length in Htl. simpl. lia.
Qed.

End EngineFacts.

(** ** Binary64 arithmetic

    The primitive operations are specified by [SFadd], [SFsub], [SFmul] and
    [SFdiv] on [spec_float].  This part derives from that specification what
    the order of the sample times needs: adding a number that is not
    negative does not give a smaller number, and a travel time is not
    negative. *)

Section Binary64.
Local Open Scope Z_scope.

(** *** Mantissas under right shifts *)
Lemma shr_1_m (r : shr_record) :
  0 ≤ shr_m r → shr_m (shr_1 r) = shr_m r / 2.
Proof.
  destruct r as [m b s]. simpl. intros Hm.
  destruct m as [|[p|p|]|p]; simpl; try lia.
  all: Z.div_mod_to_equations; lia.
Qed.

Lemma pow2_xO (p : positive) : 2 ^ Z.pos p~0 = 2 ^ Z.pos p * 2 ^ Z.pos p.
Proof. rewrite <- Z.pow_add_r by lia. f_equal. lia. Qed.

Lemma pow2_xI (p : positive) : 2 ^ Z.pos p~1 = 2 * (2 ^ Z.pos p * 2 ^ Z.pos p).
Proof.
  rewrite <- Z.pow_add_r by lia. rewrite <- Z.pow_succ_r by lia. f_equal. lia.
Qed.

Lemma iter_shr_1_m (p : positive) (r : shr_record) :
  0 ≤ shr_m r → shr_m (SpecFloat.iter_pos shr_1 p r) = shr_m r / 2 ^ Z.pos p.
Proof.
  revert r. induction p as [p IH|p IH|]; intros r Hr; simpl.
  - assert (H1 : 0 ≤ shr_m (shr_1 r)) by (rewrite shr_1_m by lia; apply Z.div_pos; lia).
    assert (H2 : 0 ≤ shr_m (SpecFloat.iter_pos shr_1 p (shr_1 r)))
      by (rewrite IH by lia; apply Z.div_pos; lia).
    rewrite IH, IH, shr_1_m by lia.
    rewrite !Z.div_div by lia. rewrite pow2_xI. reflexivity.
  - assert (H2 : 0 ≤ shr_m (SpecFloat.iter_pos shr_1 p r))
      by (rewrite IH by lia; apply Z.div_pos; lia).
    rewrite IH, IH by lia. rewrite Z.div_div by lia. rewrite pow2_xO. reflexivity.
  - rewrite shr_1_m by lia. reflexivity.
Qed.

(** The mantissa after [shr]: a floor division. *)
Lemma shr_m_shr (r : shr_record) (e n : Z) :
  0 ≤ shr_m r →
  shr_m (shr r e n).1 = shr_m r / 2 ^ Z.max n 0 ∧
  (shr r e n).2 = e + Z.max n 0.
Proof.
  intros Hr. destruct n as [|p|p]; simpl.
  - rewrite Z.div_1_r. lia.
  - rewrite iter_shr_1_m by lia. rewrite Z.max_l by lia. lia.
  - rewrite Z.div_1_r. lia.
Qed.

(** *** Number of binary digits *)
Lemma pow2_pred (d : Z) : 0 < d → 2 ^ d = 2 * 2 ^ (d - 1).
Proof. intros Hd. rewrite <- Z.pow_succ_r by lia. f_equal. lia. Qed.

Lemma digits2_pos_bounds (m : positive) :
  2 ^ (Z.pos (digits2_pos m) - 1) ≤ Z.pos m < 2 ^ Z.pos (digits2_pos m).
Proof.
  induction m as [m IH|m IH|]; simpl digits2_pos.
  - rewrite Pos2Z.inj_succ.
    replace (Z.succ (Z.pos (digits2_pos m)) - 1) with (Z.pos (digits2_pos m)) by lia.
    rewrite Z.pow_succ_r by lia.
    rewrite (pow2_pred (Z.pos (digits2_pos m))) in * by lia. lia.
  - rewrite Pos2Z.inj_succ.
    replace (Z.succ (Z.pos (digits2_pos m)) - 1) with (Z.pos (digits2_pos m)) by lia.
    rewrite Z.pow_succ_r by lia.
    rewrite (pow2_pred (Z.pos (digits2_pos m))) in * by lia. lia.
  - simpl. lia.
Qed.

Lemma Zdigits2_bounds (m : Z) :
  0 < m → 2 ^ (Zdigits2 m - 1) ≤ m < 2 ^ Zdigits2 m.
Proof. destruct m as [|p|p]; try lia. intros _. apply digits2_pos_bounds. Qed.

Lemma Zdigits2_nonneg (m : Z) : 0 ≤ Zdigits2 m.
Proof. destruct m; simpl; lia. Qed.

Lemma Zdigits2_pos (m : Z) : 0 < m → 0 < Zdigits2 m.
Proof. destruct m; simpl; lia. Qed.

(** [m < 2^k] bounds the digits, and so does [2^k ≤ m]. *)
Lemma Zdigits2_le_of_lt (m k : Z) : 0 < m → 0 ≤ k → m < 2 ^ k → Zdigits2 m ≤ k.
Proof.
  intros Hm Hk Hlt. pose proof (Zdigits2_bounds m Hm) as [Hlo _].
  pose proof (Zdigits2_pos m Hm).
  destruct (Z_le_gt_dec (Zdigits2 m) k) as [|Hgt]; [assumption|].
  assert (2 ^ k ≤ 2 ^ (Zdigits2 m - 1)) by (apply Z.pow_le_mono_r; lia). lia.
Qed.

Lemma Zdigits2_gt_of_le (m k : Z) : 0 ≤ k → 2 ^ k ≤ m → k < Zdigits2 m.
Proof.
  intros Hk Hle. assert (Hm : 0 < m) by (pose proof (Z.pow_pos_nonneg 2 k); lia).
  pose proof (Zdigits2_bounds m Hm) as [_ Hhi].
  destruct (Z_lt_le_dec k (Zdigits2 m)) as [|Hge]; [assumption|].
  assert (2 ^ Zdigits2 m ≤ 2 ^ k) by (apply Z.pow_le_mono_r; lia). lia.
Qed.

(** *** The binary64 format *)

Lemma fexp64 (e : Z) : fexp prec emax e = Z.max (e - 53) (-1074).
Proof. reflexivity. Qed.

Lemma bounded64 (m : positive) (e : Z) :
  bounded prec emax m e = true →
  Z.max (Z.pos (digits2_pos m) + e - 53) (-1074) = e ∧ e ≤ 971.
Proof.
  unfold bounded, canonical_mantissa. rewrite fexp64.
  intros [H1 H2]%andb_prop. apply Z.eqb_eq in H1. apply Z.leb_le in H2.
  change (emax - prec) with 971 in H2. lia.
Qed.

Lemma shr_m_of_loc (m : Z) (l : SpecFloat.location) : shr_m (shr_record_of_loc m l) = m.
Proof. destruct l as [|[| |]]; reflexivity. Qed.

Lemma round_nearest_even_bounds (m : Z) (l : SpecFloat.location) :
  m ≤ round_nearest_even m l ≤ m + 1.
Proof.
  destruct l as [|[| |]]; simpl; try lia. destruct (Z.even m); lia.
Qed.

Lemma shr_exact_0 (m e : Z) :
  shr (shr_record_of_loc m loc_Exact) e 0 = (Build_shr_record m false false, e).
Proof. reflexivity. Qed.

(** A positive number keeps a positive mantissa when it is cut to the
    precision. *)
Lemma div_pow2_pos (X n : Z) : 0 < X → 0 ≤ n → n ≤ Zdigits2 X - 1 → 0 < X / 2 ^ n.
Proof.
  intros HX Hn Hd. pose proof (Zdigits2_bounds X HX) as [Hlo _].
  apply Z.div_str_pos. split; [apply Z.pow_pos_nonneg; lia|].
  apply Z.le_trans with (2 ^ (Zdigits2 X - 1)); [apply Z.pow_le_mono_r; lia | exact Hlo].
Qed.

Lemma div_pow2_lower (X n k : Z) :
  0 ≤ n → 0 ≤ k → 2 ^ (n + k) ≤ X → 2 ^ k ≤ X / 2 ^ n.
Proof.
  intros Hn Hk HX. apply Z.div_le_lower_bound; [apply Z.pow_pos_nonneg; lia|].
  rewrite <- Z.pow_add_r by lia. exact HX.
Qed.

Lemma div_pow2_upper (X n k : Z) :
  0 ≤ n → 0 ≤ k → X < 2 ^ (n + k) → X / 2 ^ n < 2 ^ k.
Proof.
  intros Hn Hk HX. apply Z.div_lt_upper_bound; [apply Z.pow_pos_nonneg; lia|].
  rewrite <- Z.pow_add_r by lia. exact HX.
Qed.

Lemma binary_round_aux_exact (s : bool) (M ez : Z) :
  0 < M →
  let E := Z.max (Zdigits2 M + ez - 53) (-1074) in
  ez ≤ E →
  ∃ M2,
    M / 2 ^ (E - ez) ≤ M2 ≤ M / 2 ^ (E - ez) + 1 ∧
    (E = ez → M2 = M) ∧
    let n2 := Z.max (Z.max (Zdigits2 M2 + E - 53) (-1074) - E) 0 in
    binary_round_aux prec emax s M ez loc_Exact = finish s (M2 / 2 ^ n2) (E + n2).
Proof.
  intros HM E HE. unfold binary_round_aux, shr_fexp. rewrite !fexp64. fold E.
  pose proof (shr_m_shr (shr_record_of_loc M loc_Exact) ez (E - ez)) as H1.
  rewrite shr_m_of_loc in H1. specialize (H1 ltac:(lia)).
  destruct (Z.eq_dec E ez) as [Heq|Hne].
  - replace (E - ez) with 0 by lia. rewrite shr_exact_0. cbn [shr_m loc_of_shr_record round_nearest_even].
    exists M. rewrite Z.pow_0_r, Z.div_1_r. split; [lia|]. split; [reflexivity|].
    cbn zeta.
    pose proof (shr_m_shr (shr_record_of_loc M loc_Exact) ez
                  (Z.max (Zdigits2 M + ez - 53) (-1074) - ez)) as H2.
    rewrite shr_m_of_loc in H2. specialize (H2 ltac:(lia)).
    destruct (shr _ ez _) as [mrs'' e''].
    cbn [fst snd] in H2. destruct H2 as [H2m H2e].
    replace (E + _) with e'' by (subst E; lia).
    replace (Z.max (Z.max (Zdigits2 M + E - 53) (-1074) - E) 0)
      with (Z.max (Z.max (Zdigits2 M + ez - 53) (-1074) - ez) 0) by (rewrite Heq; reflexivity).
    rewrite <- H2m. unfold finish. change (emax - prec) with 971. reflexivity.
  - destruct (shr (shr_record_of_loc M loc_Exact) ez (E - ez)) as [mrs' e'].
    cbn [fst snd] in H1. destruct H1 as [H1m H1e].
    rewrite Z.max_l in H1m, H1e by lia.
    assert (He' : e' = E) by lia. clear H1e. subst e'. rewrite fexp64.
    set (M2 := round_nearest_even (shr_m mrs') (loc_of_shr_record mrs')).
    pose proof (round_nearest_even_bounds (shr_m mrs') (loc_of_shr_record mrs')) as HM2.
    fold M2 in HM2. rewrite H1m in HM2.
    exists M2. split; [exact HM2|]. split; [lia|]. cbn zeta.
    assert (HM2nn : 0 ≤ M2).
    { assert (0 ≤ M / 2 ^ (E - ez)) by (apply Z.div_pos; [lia | apply Z.pow_pos_nonneg; lia]). lia. }
    pose proof (shr_m_shr (shr_record_of_loc M2 loc_Exact) E
                  (Z.max (Zdigits2 M2 + E - 53) (-1074) - E)) as H2.
    rewrite shr_m_of_loc in H2. specialize (H2 HM2nn).
    destruct (shr _ E _) as [mrs'' e''].
    cbn [fst snd] in H2. destruct H2 as [H2m H2e].
    rewrite <- H2e, <- H2m. unfold finish. change (emax - prec) with 971. reflexivity.
Qed.

Lemma Pos_iter_xO (m d : positive) : Z.pos (Pos.iter xO m d) = Z.pos m * 2 ^ Z.pos d.
Proof.
  induction d as [|d IH] using Pos.peano_ind.
  - simpl. lia.
  - rewrite Pos.iter_succ, Pos2Z.inj_xO, IH, Pos2Z.inj_succ, Z.pow_succ_r by lia. lia.
Qed.

Lemma shl_align_ge (m : positive) (e e' : Z) : e ≤ e' → shl_align m e e' = (m, e).
Proof. intros He. unfold shl_align. destruct (e' - e) eqn:Hd; try reflexivity. lia. Qed.

Lemma shl_align_lt (m : positive) (e e' : Z) :
  e' < e →
  ∃ m', shl_align m e e' = (m', e') ∧ Z.pos m' = Z.pos m * 2 ^ (e - e').
Proof.
  intros He. unfold shl_align. destruct (e' - e) as [| |d] eqn:Hd; try lia.
  eexists. split; [reflexivity|]. rewrite Pos_iter_xO. f_equal. f_equal. lia.
Qed.

Lemma shl_align_fst (m : positive) (e e' : Z) :
  e' ≤ e → Z.pos (shl_align m e e').1 = Z.pos m * 2 ^ (e - e').
Proof.
  intros He. destruct (Z.eq_dec e e') as [->|Hne].
  - rewrite shl_align_ge by lia. rewrite Z.sub_diag. simpl. lia.
  - destruct (shl_align_lt m e e') as (m' & -> & Hm'); [lia|]. exact Hm'.
Qed.

Lemma Zdigits2_mul_pow2 (A k : Z) :
  0 < A → 0 ≤ k → Zdigits2 (A * 2 ^ k) = Zdigits2 A + k.
Proof.
  intros HA Hk. pose proof (Zdigits2_bounds A HA) as [Hlo Hhi].
  pose proof (Zdigits2_pos A HA) as Hd.
  assert (Hp : 0 < 2 ^ k) by (apply Z.pow_pos_nonneg; lia).
  assert (HAk : 0 < A * 2 ^ k) by lia.
  assert (H1 : Zdigits2 (A * 2 ^ k) ≤ Zdigits2 A + k).
  { apply Zdigits2_le_of_lt; [lia | lia|]. rewrite Z.pow_add_r by lia. nia. }
  assert (H2 : Zdigits2 A - 1 + k < Zdigits2 (A * 2 ^ k)).
  { apply Zdigits2_gt_of_le; [lia|]. rewrite Z.pow_add_r by lia. nia. }
  lia.
Qed.

(** Rounding a number that is not below a representable one gives a
    result that is not below it. *)
Lemma binary_round_lower (s : bool) (M mx : positive) (ez ex : Z) :
  -1074 ≤ ez → ez ≤ ex →
  Z.max (Z.pos (digits2_pos mx) + ex - 53) (-1074) = ex →
  Z.pos mx * 2 ^ (ex - ez) ≤ Z.pos M →
  binary_round prec emax s M ez = S754_infinity s ∨
  ∃ m' e', binary_round prec emax s M ez = S754_finite s m' e' ∧
           (ex < e' ∨ (e' = ex ∧ Z.pos mx ≤ Z.pos m')).
Proof.
  intros Hez Hex Hcan HM.
  pose proof (digits2_pos_bounds mx) as [Hmlo Hmhi].
  set (dx := Z.pos (digits2_pos mx)) in *.
  set (dM := Zdigits2 (Z.pos M)).
  assert (Hp : 0 < 2 ^ (ex - ez)) by (apply Z.pow_pos_nonneg; lia).
  assert (HdM : dx - 1 + (ex - ez) < dM).
  { apply Zdigits2_gt_of_le; [lia|]. rewrite Z.pow_add_r by lia. nia. }
  unfold binary_round. rewrite fexp64. change (Z.pos (digits2_pos M)) with dM.
  set (E := Z.max (dM + ez - 53) (-1074)).
  assert (HE : ex ≤ E) by lia.
  rewrite shl_align_ge by lia.
  pose proof (binary_round_aux_exact s (Z.pos M) ez) as Haux.
  cbn zeta in Haux. fold dM in Haux. fold E in Haux.
  destruct (Haux ltac:(lia) ltac:(lia)) as (M2 & HM2 & _ & Heq).
  rewrite Heq. clear Heq Haux.
  set (n2 := Z.max (Z.max (Zdigits2 M2 + E - 53) (-1074) - E) 0).
  assert (HM1 : 0 < Z.pos M / 2 ^ (E - ez)).
  { apply div_pow2_pos; [lia | lia|]. fold dM. lia. }
  assert (HM2pos : 0 < M2) by lia.
  pose proof (Zdigits2_pos M2 HM2pos) as HdM2.
  assert (Hm' : 0 < M2 / 2 ^ n2).
  { apply div_pow2_pos; [lia | lia | lia]. }
  unfold finish. destruct (M2 / 2 ^ n2) as [|m'|m'] eqn:Hq; try lia.
  destruct (E + n2 <=? 971); [|left; reflexivity].
  right. exists m', (E + n2). split; [reflexivity|].
  destruct (Z_lt_le_dec ex (E + n2)) as [|Hle]; [left; assumption|].
  right. assert (E = ex) by lia. assert (Hn2 : n2 = 0) by lia.
  split; [lia|]. rewrite <- Hq, Hn2, Z.pow_0_r, Z.div_1_r.
  assert (Z.pos mx ≤ Z.pos M / 2 ^ (E - ez)).
  { apply Z.div_le_lower_bound; [apply Z.pow_pos_nonneg; lia|].
    replace (E - ez) with (ex - ez) by lia. lia. }
  lia.
Qed.

(** Rounding a number that is below a representable one gives a result
    that is not above it. *)
Lemma binary_round_upper (s : bool) (A mx : positive) (ez ex : Z) :
  -1074 ≤ ez → ez ≤ ex → ex ≤ 971 →
  Z.max (Z.pos (digits2_pos mx) + ex - 53) (-1074) = ex →
  Z.pos A < Z.pos mx * 2 ^ (ex - ez) →
  binary_round prec emax s A ez = S754_zero s ∨
  ∃ m' e', binary_round prec emax s A ez = S754_finite s m' e' ∧
           (e' < ex ∨ (e' = ex ∧ Z.pos m' ≤ Z.pos mx)).
Proof.
  intros Hez Hex Hmax Hcan HA.
  pose proof (digits2_pos_bounds mx) as [Hmlo Hmhi].
  set (dx := Z.pos (digits2_pos mx)) in *.
  set (dA := Zdigits2 (Z.pos A)).
  pose proof (Zdigits2_bounds (Z.pos A) ltac:(lia)) as [HAlo HAhi]. fold dA in HAlo, HAhi.
  assert (HdApos : 0 < dA) by (apply Zdigits2_pos; lia).
  assert (Hp : 0 < 2 ^ (ex - ez)) by (apply Z.pow_pos_nonneg; lia).
  assert (HdA : dA ≤ dx + (ex - ez)).
  { apply Zdigits2_le_of_lt; [lia | lia|]. rewrite Z.pow_add_r by lia. nia. }
  unfold binary_round. rewrite fexp64. change (Z.pos (digits2_pos A)) with dA.
  set (E := Z.max (dA + ez - 53) (-1074)).
  assert (HE : E ≤ ex) by lia.
  destruct (Z_lt_le_dec E ez) as [Hlt|Hge].
  - (* the number is shifted left to its own exponent: nothing is lost *)
    destruct (shl_align_lt A ez E Hlt) as (A2 & -> & HA2).
    assert (HdA2 : Zdigits2 (Z.pos A2) = dA + (ez - E)).
    { rewrite HA2. apply Zdigits2_mul_pow2; lia. }
    pose proof (binary_round_aux_exact s (Z.pos A2) E) as Haux.
    cbn zeta in Haux. rewrite HdA2 in Haux.
    destruct (Haux ltac:(lia) ltac:(lia)) as (M2 & _ & HM2 & Heq).
    rewrite Heq. clear Heq Haux.
    rewrite HM2 by lia. rewrite HdA2.
    replace (Z.max (Z.max (dA + (ez - E) + Z.max (dA + (ez - E) + E - 53) (-1074) - 53)
                      (-1074) - Z.max (dA + (ez - E) + E - 53) (-1074)) 0) with 0 by lia.
    rewrite Z.pow_0_r, Z.div_1_r. unfold finish.
    replace (Z.max (dA + (ez - E) + E - 53) (-1074) + 0) with E by lia.
    assert (HEle : (E <=? 971) = true) by (apply Z.leb_le; lia).
    rewrite HEle. right. exists A2, E. split; [reflexivity | left; lia].
  - rewrite shl_align_ge by lia.
    pose proof (binary_round_aux_exact s (Z.pos A) ez) as Haux.
    cbn zeta in Haux. fold dA in Haux. fold E in Haux.
    destruct (Haux ltac:(lia) ltac:(lia)) as (M2 & HM2 & _ & Heq).
    rewrite Heq. clear Heq Haux.
    set (n2 := Z.max (Z.max (Zdigits2 M2 + E - 53) (-1074) - E) 0).
    assert (HM1nn : 0 ≤ Z.pos A / 2 ^ (E - ez))
      by (apply Z.div_pos; [lia | apply Z.pow_pos_nonneg; lia]).
    assert (HM1 : Z.pos A / 2 ^ (E - ez) < 2 ^ 53).
    { apply div_pow2_upper; [lia | lia|].
      apply Z.lt_le_trans with (2 ^ dA); [exact HAhi | apply Z.pow_le_mono_r; lia]. }
    destruct (Z.eq_dec M2 0) as [->|HM2nz].
    { left. rewrite Z.div_0_l by (apply Z.pow_nonzero; lia). reflexivity. }
    assert (HM2pos : 0 < M2) by lia.
    pose proof (Zdigits2_pos M2 HM2pos) as HdM2.
    pose proof (Zdigits2_bounds M2 HM2pos) as [HM2lo HM2hi].
    assert (HdM2le : Zdigits2 M2 ≤ 54).
    { apply Zdigits2_le_of_lt; [lia | lia|]. change (2 ^ 54) with (2 * 2 ^ 53). lia. }
    assert (Hn2 : 0 ≤ n2 ≤ 1) by lia.
    unfold finish. destruct (M2 / 2 ^ n2) as [|m'|m'] eqn:Hq.
    + left. reflexivity.
    + destruct (Z_lt_le_dec E ex) as [HEx|HEx].
      * assert (Hfin : (E + n2 <=? 971) = true) by (apply Z.leb_le; lia).
        rewrite Hfin. right. exists m', (E + n2). split; [reflexivity|].
        destruct (Z_lt_le_dec (E + n2) ex) as [|Hcarry]; [left; assumption|].
        right. split; [lia|].
        assert (Hn21 : n2 = 1) by lia.
        assert (Hd54 : Zdigits2 M2 = 54) by lia.
        rewrite Hd54 in HM2lo. change (2 ^ (54 - 1)) with (2 ^ 53) in HM2lo.
        assert (HM2eq : M2 = 2 ^ 53) by lia.
        assert (Hdx : dx = 53) by lia.
        rewrite Hdx in Hmlo. change (2 ^ (53 - 1)) with (2 ^ 52) in Hmlo.
        rewrite <- Hq, HM2eq, Hn21. change (2 ^ 53 / 2 ^ 1) with (2 ^ 52). exact Hmlo.
      * assert (HEeq : E = ex) by lia.
        assert (HM1lt : Z.pos A / 2 ^ (E - ez) < Z.pos mx).
        { apply Z.div_lt_upper_bound; [apply Z.pow_pos_nonneg; lia|].
          replace (E - ez) with (ex - ez) by lia. lia. }
        assert (HM2le : M2 ≤ Z.pos mx) by lia.
        assert (HdM2dx : Zdigits2 M2 ≤ dx).
        { apply Zdigits2_le_of_lt; [lia | lia | lia]. }
        assert (Hn20 : n2 = 0) by lia.
        assert (Hfin : (E + n2 <=? 971) = true) by (apply Z.leb_le; lia).
        rewrite Hfin. right. exists m', (E + n2). split; [reflexivity|].
        right. split; [lia|].
        rewrite <- Hq, Hn20, Z.pow_0_r, Z.div_1_r. exact HM2le.
    + exfalso.
      assert (0 ≤ M2 / 2 ^ n2) by (apply Z.div_pos; [lia | apply Z.pow_pos_nonneg; lia]).
      lia.
Qed.

(** *** Signs *)

Lemma binary_round_aux_signed (s : bool) (m e : Z) (l : SpecFloat.location) :
  0 ≤ m → signed s (binary_round_aux prec emax s m e l).
Proof.
  intros Hm. unfold binary_round_aux, shr_fexp.
  pose proof (shr_m_shr (shr_record_of_loc m l) e
                (fexp prec emax (Zdigits2 m + e) - e)) as H1.
  rewrite shr_m_of_loc in H1. specialize (H1 Hm).
  destruct (shr _ e _) as [mrs' e']. cbn [fst snd] in H1. destruct H1 as [H1 _].
  set (M2 := round_nearest_even (shr_m mrs') (loc_of_shr_record mrs')).
  assert (HM2 : 0 ≤ M2).
  { pose proof (round_nearest_even_bounds (shr_m mrs') (loc_of_shr_record mrs')).
    assert (0 ≤ shr_m mrs')
      by (rewrite H1; apply Z.div_pos; [lia | apply Z.pow_pos_nonneg; lia]).
    unfold M2. lia. }
  pose proof (shr_m_shr (shr_record_of_loc M2 loc_Exact) e'
                (fexp prec emax (Zdigits2 M2 + e') - e')) as H2.
  rewrite shr_m_of_loc in H2. specialize (H2 HM2).
  destruct (shr _ e' _) as [mrs'' e'']. cbn [fst snd] in H2. destruct H2 as [H2 _].
  assert (0 ≤ shr_m mrs'')
    by (rewrite H2; apply Z.div_pos; [lia | apply Z.pow_pos_nonneg; lia]).
  destruct (shr_m mrs''); [reflexivity | | lia].
  destruct (e'' <=? emax - prec); reflexivity.
Qed.

Lemma binary_round_signed (s : bool) (m : positive) (e : Z) :
  signed s (binary_round prec emax s m e).
Proof.
  unfold binary_round. destruct (shl_align m e _) as [mz ez].
  apply binary_round_aux_signed. lia.
Qed.

(** *** The order of binary64 numbers *)

Lemma SFleb_pos_pos (mx m' : positive) (ex e' : Z) :
  ex < e' ∨ (e' = ex ∧ Z.pos mx ≤ Z.pos m') →
  SFleb (S754_finite false mx ex) (S754_finite false m' e') = true.
Proof.
  intros H. unfold SFleb, SFcompare.
  destruct (Z.compare_spec ex e') as [Heq|Hlt|Hgt]; [|reflexivity | lia].
  change (Pos.compare_cont Eq mx m') with (Pos.compare mx m').
  destruct (Pos.compare_spec mx m'); try reflexivity. lia.
Qed.

Lemma SFleb_neg_neg (mx m' : positive) (ex e' : Z) :
  e' < ex ∨ (e' = ex ∧ Z.pos m' ≤ Z.pos mx) →
  SFleb (S754_finite true mx ex) (S754_finite true m' e') = true.
Proof.
  intros H. unfold SFleb, SFcompare.
  destruct (Z.compare_spec ex e') as [Heq|Hlt|Hgt]; [| lia | reflexivity].
  change (Pos.compare_cont Eq mx m') with (Pos.compare mx m').
  destruct (Pos.compare_spec mx m'); try reflexivity. lia.
Qed.

Lemma SFleb_refl (x : spec_float) : x ≠ S754_nan → SFleb x x = true.
Proof.
  destruct x as [s|s| |s m e]; intros Hx; try congruence.
  - reflexivity.
  - destruct s; reflexivity.
  - destruct s; [apply SFleb_neg_neg | apply SFleb_pos_pos]; lia.
Qed.

Lemma SFleb_trans (x y z : spec_float) :
  SFleb x y = true → SFleb y z = true → SFleb x z = true.
Proof.
  unfold SFleb, SFcompare.
  destruct x as [sx|sx| |sx mx ex], y as [sy|sy| |sy my ey], z as [sz|sz| |sz mz ez];
    try discriminate; try reflexivity;
    repeat match goal with s : bool |- _ => destruct s end;
    try discriminate; try reflexivity.
  all: change (Pos.compare_cont Eq) with Pos.compare.
  all: repeat match goal with
         | |- context [Z.compare ?a ?b] => destruct (Z.compare_spec a b)
         | |- context [Pos.compare ?a ?b] => destruct (Pos.compare_spec a b)
         end; simpl; try discriminate; try reflexivity; intros; lia.
Qed.

(** *** Adding a non-negative number *)

Lemma signed_false_good (r : spec_float) : signed false r → good_time r ∧ nonneg r.
Proof. destruct r as [s|s| |s m e]; simpl; intros H; subst; auto. Qed.

Lemma SFleb_neg_signed_false (mx : positive) (ex : Z) (r : spec_float) :
  signed false r → SFleb (S754_finite true mx ex) r = true.
Proof. destruct r as [s|s| |s m e]; simpl; intros H; subst; try reflexivity. contradiction. Qed.

Lemma SFadd_finite_pos (sx : bool) (mx my : positive) (ex ey : Z) :
  bounded prec emax mx ex = true →
  bounded prec emax my ey = true →
  let x := S754_finite sx mx ex in
  let r := SF64add x (S754_finite false my ey) in
  SFleb x r = true ∧ good_time r.
Proof.
  intros [Hcx Hex]%bounded64 [Hcy Hey]%bounded64 x r.
  unfold r, x, SF64add, SFadd. clear r x.
  set (ez := Z.min ex ey).
  assert (Hez : -1074 ≤ ez ∧ ez ≤ ex ∧ ez ≤ ey) by lia.
  pose proof (shl_align_fst mx ex ez ltac:(lia)) as HX.
  pose proof (shl_align_fst my ey ez ltac:(lia)) as HY.
  set (X := (shl_align mx ex ez).1) in *. set (Y := (shl_align my ey ez).1) in *.
  assert (Hpy : 0 < 2 ^ (ey - ez)) by (apply Z.pow_pos_nonneg; lia).
  destruct sx; cbn [cond_Zopp].
  - (* a negative number plus a positive one *)
    destruct (- Z.pos X + Z.pos Y) as [|M|A] eqn:HM; cbn [binary_normalize].
    + split; reflexivity.
    + pose proof (binary_round_signed false M ez) as Hs.
      split; [apply SFleb_neg_signed_false; exact Hs|].
      apply signed_false_good. exact Hs.
    + destruct (binary_round_upper true A mx ez ex) as [-> | (m' & e' & -> & Hb)];
        [lia | lia | lia | exact Hcx | nia | split; reflexivity |].
      split; [apply SFleb_neg_neg; exact Hb | exact I].
  - change (Z.pos X + Z.pos Y) with (Z.pos (X + Y)). cbn [binary_normalize].
    destruct (binary_round_lower false (X + Y) mx ez ex) as [-> | (m' & e' & -> & Hb)];
      [lia | lia | exact Hcx | lia | split; reflexivity |].
    split; [apply SFleb_pos_pos; exact Hb | exact I].
Qed.

(** Adding a non-negative number to a time does not make it smaller, and
    gives a time. *)
Lemma SFadd_mono (x y : spec_float) :
  valid_binary x = true → valid_binary y = true →
  good_time x → nonneg y →
  SFleb x (SF64add x y) = true ∧ good_time (SF64add x y).
Proof.
  intros Hvx Hvy Hx Hy.
  destruct x as [sx|sx| |sx mx ex]; cbn [good_time] in Hx; try contradiction;
    destruct y as [sy|sy| |sy my ey]; cbn [nonneg] in Hy; try contradiction.
  - destruct sx, sy; split; reflexivity.
  - destruct sy; [contradiction|]. split; reflexivity.
  - destruct sy; [contradiction|]. destruct sx; split; reflexivity.
  - destruct sx; [contradiction|]. split; reflexivity.
  - destruct sx; [contradiction|]. destruct sy; [contradiction|]. split; reflexivity.
  - destruct sx; [contradiction|]. destruct sy; [contradiction|]. split; reflexivity.
  - change (SF64add (S754_finite sx mx ex) (S754_zero sy)) with (S754_finite sx mx ex).
    split; [apply SFleb_refl; discriminate | exact I].
  - destruct sy; [contradiction|]. destruct sx; split; reflexivity.
  - destruct sy; [contradiction|]. apply SFadd_finite_pos; assumption.
Qed.

(** *** Travel times *)

Lemma signed_not_nan (s : bool) (r : spec_float) : signed s r → r ≠ S754_nan.
Proof. destruct r; simpl; congruence. Qed.

Lemma binary_normalize_not_nan (m e : Z) (s : bool) :
  binary_normalize prec emax m e s ≠ S754_nan.
Proof.
  destruct m as [|p|p]; cbn [binary_normalize]; [discriminate | |];
    eapply signed_not_nan, binary_round_signed.
Qed.

Lemma SFsub_finite_not_nan (a b : spec_float) :
  finite_sf a → finite_sf b → SF64sub a b ≠ S754_nan.
Proof.
  destruct a as [sa|sa| |sa ma ea], b as [sb|sb| |sb mb eb]; simpl; try contradiction;
    intros _ _; try discriminate.
  - destruct sa, sb; discriminate.
  - apply binary_normalize_not_nan.
Qed.

Lemma SFabs_signed (a : spec_float) : a ≠ S754_nan → signed false (SFabs a).
Proof. destruct a; simpl; congruence. Qed.

Lemma SFdiv_signed (a : spec_float) (mv : positive) (ev : Z) :
  signed false a → signed false (SF64div a (S754_finite false mv ev)).
Proof.
  destruct a as [sa|sa| |sa ma ea]; simpl; try contradiction; intros ->;
    try reflexivity.
  unfold SF64div, SFdiv, SFdiv_core_binary.
  set (m' := match _ - _ with Z.pos _ => _ | Z0 => _ | Z.neg _ => _ end).
  assert (Hm' : 0 ≤ m').
  { unfold m'. destruct (_ - _ - _); [lia | | lia].
    rewrite Z.shiftl_mul_pow2 by lia.
    assert (0 < 2 ^ Z.pos p) by (apply Z.pow_pos_nonneg; lia). lia. }
  destruct (Z.div_eucl m' (Z.pos mv)) as [q r] eqn:Hqr.
  apply binary_round_aux_signed.
  assert (Hq : q = m' / Z.pos mv) by (unfold Z.div; rewrite Hqr; reflexivity).
  rewrite Hq. apply Z.div_pos; lia.
Qed.

Lemma SFmul_signed (a : spec_float) (mc : positive) (ec : Z) :
  signed false a → signed false (SF64mul a (S754_finite false mc ec)).
Proof.
  destruct a as [sa|sa| |sa ma ea]; simpl; try contradiction; intros ->;
    try reflexivity.
  unfold SF64mul, SFmul. apply binary_round_aux_signed. lia.
Qed.

Lemma Prim2SF_sixty : ∃ m e, Prim2SF 60%float = S754_finite false m e.
Proof. eexists _, _. vm_compute. reflexivity. Qed.

(** [abs(d - x) / v * 60] is zero, positive or plus infinity when the two
    coordinates are finite and the velocity is finite and positive. *)
Lemma travel_time_nonneg (d x v : float) (mv : positive) (ev : Z) :
  finite_sf (Prim2SF d) → finite_sf (Prim2SF x) →
  Prim2SF v = S754_finite false mv ev →
  nonneg (Prim2SF (PrimFloat.abs (d - x) / v * 60)%float).
Proof.
  intros Hd Hx Hv. destruct Prim2SF_sixty as (mc & ec & Hc).
  rewrite mul_spec, div_spec, abs_spec, sub_spec, Hv, Hc.
  apply signed_false_good, SFmul_signed, SFdiv_signed, SFabs_signed.
  apply SFsub_finite_not_nan; assumption.
Qed.

(** *** From the specification to the primitive operations *)

Lemma float_add_mono (t y : float) :
  good_time (Prim2SF t) → nonneg (Prim2SF y) →
  (t <=? t + y)%float = true ∧ good_time (Prim2SF (t + y)%float).
Proof.
  intros Ht Hy. rewrite leb_spec, add_spec.
  apply SFadd_mono; auto using Prim2SF_valid.
Qed.

Lemma float_leb_refl (t : float) : good_time (Prim2SF t) → (t <=? t)%float = true.
Proof.
  intros Ht. rewrite leb_spec. apply SFleb_refl.
  destruct (Prim2SF t); simpl in Ht; congruence.
Qed.

Lemma float_leb_trans (x y z : float) :
  (x <=? y)%float = true → (y <=? z)%float = true → (x <=? z)%float = true.
Proof. rewrite !leb_spec. apply SFleb_trans. Qed.

Lemma float_leb_zero_nonneg (y : float) :
  (0 <=? y)%float = true → nonneg (Prim2SF y).
Proof.
  rewrite leb_spec. change (Prim2SF 0%float) with (S754_zero false).
  destruct (Prim2SF y) as [s|[|]| |[|] m e]; simpl; try discriminate; auto.
Qed.

Lemma float_ltb_zero_pos (v : float) :
  (0 <? v)%float = true → finite_sf (Prim2SF v) →
  ∃ m e, Prim2SF v = S754_finite false m e.
Proof.
  rewrite ltb_spec. change (Prim2SF 0%float) with (S754_zero false).
  destruct (Prim2SF v) as [s|[|]| |[|] m e]; simpl; try discriminate; try contradiction.
  eauto.
Qed.

Lemma finite_sf_good (x : spec_float) : finite_sf x → good_time x.
Proof. destruct x as [s|[|]| |s m e]; simpl; auto. Qed.

(** *** A leg of no length *)

Lemma SFsub_same (a : spec_float) : finite_sf a → SF64sub a a = S754_zero false.
Proof.
  destruct a as [[|]|s| |s m e]; simpl; try contradiction; intros _; try reflexivity.
  unfold SF64sub, SFsub. rewrite Z.sub_diag. reflexivity.
Qed.

(** With a velocity that is a number and not zero, the travel time between
    a finite coordinate and itself is a zero, and adding it leaves every
    time but [-0.0] as it is. *)
Lemma float_zero_leg (d v t : float) :
  finite_sf (Prim2SF d) →
  Prim2SF v ≠ S754_nan → (v =? 0)%float = false →
  Prim2SF t ≠ S754_zero true →
  (t + PrimFloat.abs (d - d) / v * 60)%float = t.
Proof.
  intros Hd Hnan Hnz Ht. apply Prim2SF_inj.
  destruct Prim2SF_sixty as (mc & ec & Hc).
  rewrite add_spec, mul_spec, div_spec, abs_spec, sub_spec, Hc, (SFsub_same _ Hd).
  rewrite FloatAxioms.eqb_spec in Hnz. change (Prim2SF 0%float) with (S754_zero false) in Hnz.
  destruct (Prim2SF v) as [sv|sv| |sv mv ev]; try congruence; try discriminate;
    destruct (Prim2SF t) as [[|]|st| |st mt et]; try congruence;
    destruct sv; try destruct st; reflexivity.
Qed.

End Binary64.

(** ** The order of the sample times, on binary64 *)

Section Binary64Engine.
Implicit Types (network : gmap string float) (velocity t x : float).
Implicit Types (route : list (Stop float)) (m tl : list (Position float)).
Implicit Types (timetable : Timetable float) (p : Position float).

Lemma non_decreasing_nil : non_decreasing ([] : list (Position float)).
Proof. intros i j a b _ Hi. destruct i; discriminate. Qed.

(** A sample whose time is a number, not later than the first sample of a
    non-decreasing list, can be put in front of the list. *)
Lemma non_decreasing_cons p m :
  good_time (Prim2SF (time p)) →
  (∀ q, m !! 0 = Some q → le (time p) (time q)) →
  non_decreasing m →
  non_decreasing (p :: m).
Proof.
  intros Hp Hhead Hm i j a b Hij Hi Hj.
  destruct i as [|i]; simpl in Hi.
  - injection Hi as <-. destruct j as [|j]; simpl in Hj.
    + injection Hj as <-. apply float_leb_refl. exact Hp.
    + destruct m as [|q m']; [destruct j; discriminate|].
      apply float_leb_trans with (time q).
      * apply Hhead. reflexivity.
      * apply (Hm 0 j q b); [lia | reflexivity | exact Hj].
  - destruct j as [|j]; [lia|]. simpl in Hj.
    apply (Hm i j a b); [lia | exact Hi | exact Hj].
Qed.

(** A positive velocity is a valid divisor. *)
Lemma positive_is_divisor velocity : lt zero velocity → is_zero velocity = false.
Proof.
  simpl. rewrite ltb_spec, FloatAxioms.eqb_spec.
  change (Prim2SF 0%float) with (S754_zero false).
  destruct (Prim2SF velocity) as [s|[|]| |[|] mv ev]; simpl; intros H;
    try discriminate; reflexivity.
Qed.

Lemma legs_non_decreasing velocity network t x route tl (mv : positive) (ev : Z) :
  Prim2SF velocity = S754_finite false mv ev →
  map_Forall (λ _ d, finite64 d) network →
  Forall (λ s, le zero (dwell_time s)) route →
  good_time (Prim2SF t) → finite64 x →
  legs velocity network t x route = Ok tl →
  non_decreasing (mkPosition t x :: tl).
Proof.
  intros Hv Hnet Hdwell. revert t x tl.
  induction Hdwell as [|s rest Hs _ IH]; intros t x tl Ht Hx Hl.
  - injection Hl as <-. apply non_decreasing_cons; [exact Ht | | apply non_decreasing_nil].
    intros q Hq. discriminate.
  - apply legs_cons_Ok in Hl as (d & tl' & Hd & _ & Htl' & ->).
    cbn zeta in Htl'.
    assert (Hfd : finite64 d) by exact (Hnet _ _ Hd).
    set (c := mul (quot (absv (sub d x)) velocity) sixty) in *.
    assert (Hc : nonneg (Prim2SF c)) by exact (travel_time_nonneg d x velocity mv ev Hfd Hx Hv).
    destruct (float_add_mono t c Ht Hc) as [Harr Hgood].
    destruct (float_add_mono (t + c)%float (dwell_time s) Hgood
                (float_leb_zero_nonneg _ Hs)) as [Hdep Hgood'].
    apply non_decreasing_cons; [exact Ht | intros q [= <-]; exact Harr|].
    apply non_decreasing_cons; [exact Hgood | intros q [= <-]; exact Hdep|].
    exact (IH _ _ _ Hgood' Hfd Htl').
Qed.

(** C4, on binary64.  With every station resolvable, a finite velocity
    above zero, dwell times not below zero, a finite departure time and
    finite coordinates, the engine returns a trajectory whose sample times
    are non-decreasing along the whole sequence, for Python's [<=] on the
    numbers the engine computes, rounding and overflow included. *)
Theorem sample_times_non_decreasing timetable velocity network :
  resolvable network timetable →
  lt zero velocity →
  Forall (λ s, le zero (dwell_time s)) (stops timetable) →
  finite64 velocity →
  finite64 (departure_time timetable) →
  map_Forall (λ _ d, finite64 d) network →
  ∃ m, get_train_movement timetable velocity network = Ok m ∧ non_decreasing m.
Proof.
  intros [[x0 Hx0] Hres] Hv Hdwell Hfv Ht0 Hnet.
  destruct (float_ltb_zero_pos velocity Hv Hfv) as (mv & ev & HvSF).
  destruct (legs_returns velocity network (departure_time timetable) x0
              (stops timetable) Hres (positive_is_divisor _ Hv)) as [tl Htl].
  exists (mkPosition (departure_time timetable) x0 :: tl). split.
  - rewrite get_train_movement_legs.
    apply getitem_Ok in Hx0. rewrite Hx0. simpl. rewrite Htl. reflexivity.
  - apply (legs_non_decreasing velocity network _ _ _ _ mv ev HvSF Hnet Hdwell);
      [apply finite_sf_good; exact Ht0 | exact (Hnet _ _ Hx0) | exact Htl].
Qed.

(** A stop at the place where the train already is takes no travel time on
    binary64 either: when the coordinate of the stop is the finite location
    of the sample before it and the velocity is a number, the arrival
    sample has the time of that sample, unless that time is [-0.0], which
    becomes [+0.0]. *)
Theorem zero_length_leg timetable velocity network m (k : nat) s prev :
  get_train_movement timetable velocity network = Ok m →
  stops timetable !! k = Some s →
  m !! (2 * k) = Some prev →
  network !! name s = Some (location prev) →
  finite64 (location prev) →
  Prim2SF velocity ≠ S754_nan →
  Prim2SF (time prev) ≠ S754_zero true →
  m !! (2 * k + 1) = Some prev.
Proof.
  intros Hm Hk Hprev Hd Hfin Hnan Hneg.
  rewrite get_train_movement_legs in Hm.
  apply bind_Ok in Hm as (x0 & _ & Hm).
  apply bind_Ok in Hm as (tl & Htl & [= <-]).
  assert (Hz : is_zero velocity = false).
  { apply (proj2 (legs_Ok_resolves _ _ _ _ _ _ Htl)).
    intros Hnil. rewrite Hnil in Hk. destruct k; discriminate. }
  destruct (legs_lookup _ _ _ _ _ _ _ _ Htl Hk)
    as (d' & prev' & Hd' & Hprev' & Harr & _).
  assert (d' = location prev) as -> by congruence.
  assert (prev' = prev) as -> by congruence.
  rewrite Harr. f_equal. destruct prev as [t x]. cbn [time location] in *.
  f_equal. exact (float_zero_leg x velocity t Hfin Hnan Hz Hneg).
Qed.

End Binary64Engine.

(** ** The engine and the objects of its caller *)

Section StoreFacts.
Context {num : Type} `{!Arith num}.
Implicit Types (w : world num) (h : list (obj num)) (m : list (Position num)).
Implicit Types (velocity t x : num).

Lemma bind_run {A B} (c : prog num A) (f : A → prog num B) w a w1 :
  c w = (Ok a, w1) → (c ≫= f) w = f a w1.
Proof. intros Hc. unfold mbind, prog_bind. rewrite Hc. reflexivity. Qed.

Lemma bind_run_raise {A B} (c : prog num A) (f : A → prog num B) w e w1 :
  c w = (Raise e, w1) → (c ≫= f) w = (Raise e, w1).
Proof. intros Hc. unfold mbind, prog_bind. rewrite Hc. reflexivity. Qed.

Lemma length_built h0 m : length (built h0 m) = length h0 + 1 + length m.
Proof. unfold built. rewrite length_app. simpl. rewrite length_map. lia. Qed.

Lemma built_nil h0 : h0 ++ [OList []] = built h0 [].
Proof. reflexivity. Qed.

Lemma built_lookup_old h0 m a o : h0 !! a = Some o → built h0 m !! a = Some o.
Proof. intros Ha. unfold built. apply lookup_app_l_Some. exact Ha. Qed.

Lemma built_lookup_list h0 m :
  built h0 m !! length h0 = Some (OList (seq (S (length h0)) (length m))).
Proof. unfold built. apply list_lookup_middle. reflexivity. Qed.

Lemma built_lookup_position h0 m i p :
  m !! i = Some p → built h0 m !! (S (length h0) + i) = Some (position_obj p).
Proof.
  intros Hi. unfold built.
  rewrite lookup_app_r by lia.
  replace (S (length h0) + i - length h0) with (S i) by lia. simpl.
  rewrite list_lookup_fmap, Hi. reflexivity.
Qed.

(** [movement.append(Position(t, x))] on a store the engine has built. *)
Lemma append_position_built h0 m t x w :
  heap w = built h0 m →
  append_position (length h0) t x w =
  (Ok (), mkWorld (built h0 (m ++ [mkPosition t x])) (output w)).
Proof.
  intros Hw. unfold append_position, alloc, list_append, load, store.
  unfold mbind, prog_bind. simpl. rewrite Hw.
  assert (Hl : (built h0 m ++ [OPosition t x]) !! length h0 =
               Some (OList (seq (S (length h0)) (length m)))).
  { apply lookup_app_l_Some, built_lookup_list. }
  rewrite Hl. f_equal. f_equal.
  rewrite length_built. unfold built. cbn [heap].
  rewrite <- app_assoc. rewrite insert_app_r_alt by lia.
  rewrite Nat.sub_diag. simpl.
  rewrite length_app, map_app. simpl.
  replace (length m + 1) with (S (length m)) by lia.
  rewrite seq_S.
  replace (length h0 + 1 + length m) with (S (length h0) + length m) by lia.
  reflexivity.
Qed.

Lemma tidy_same h0 {A} (c : prog num A) :
  (∀ w, (c w).2 = w) → tidy h0 c.
Proof.
  intros Hc w m Hw. exists []. rewrite Hc, app_nil_r. auto.
Qed.

Lemma tidy_ret h0 {A} (a : A) : tidy h0 (mret a : prog num A).
Proof. apply tidy_same. reflexivity. Qed.

Lemma tidy_raise h0 {A} e : tidy h0 (raise e : prog num A).
Proof. apply tidy_same. reflexivity. Qed.

Lemma tidy_lift h0 {A} (r : result A) : tidy h0 (lift r : prog num A).
Proof. apply tidy_same. reflexivity. Qed.

Lemma tidy_load h0 a : tidy h0 (load a : prog num (obj num)).
Proof.
  apply tidy_same. intros w. unfold load. destruct (heap w !! a); reflexivity.
Qed.

Lemma tidy_bind h0 {A B} (c : prog num A) (f : A → prog num B) :
  tidy h0 c → (∀ a, tidy h0 (f a)) → tidy h0 (c ≫= f).
Proof.
  intros Hc Hf w m Hw. unfold mbind, prog_bind.
  destruct (Hc w m Hw) as (m1 & Hh1 & Ho1).
  destruct (c w) as [[a|e] w1]; simpl in *.
  - destruct (Hf a w1 (m ++ m1) Hh1) as (m2 & Hh2 & Ho2).
    exists (m1 ++ m2). rewrite app_assoc. split; congruence.
  - exists m1. auto.
Qed.

Lemma tidy_append_position h0 t x : tidy h0 (append_position (length h0) t x).
Proof.
  intros w m Hw. rewrite (append_position_built h0 m t x w Hw). simpl.
  exists [mkPosition t x]. auto.
Qed.

Ltac tidy_step :=
  first
    [ apply tidy_ret | apply tidy_raise | apply tidy_lift | apply tidy_load
    | apply tidy_append_position
    | apply tidy_bind; [|intros ?]
    | match goal with
      | |- tidy _ (match ?o with _ => _ end) => destruct o
      end ].

Lemma tidy_loop_body h0 ta velocity na i cur :
  tidy h0 (loop_body_obj ta velocity na (length h0) i cur).
Proof.
  unfold loop_body_obj, attr_stops, attr_name, attr_dwell_time,
    list_getitem, dict_getitem.
  repeat tidy_step.
Qed.

Lemma tidy_range_loop h0 ta velocity na n i cur :
  tidy h0 (range_loop_obj ta velocity na (length h0) n i cur).
Proof.
  revert i cur. induction n as [|n IH]; intros i cur; simpl.
  - apply tidy_ret.
  - apply tidy_bind; [apply tidy_loop_body | intros cur'; apply IH].
Qed.

Lemma get_train_movement_obj_rest ta velocity na w :
  get_train_movement_obj ta velocity na w =
  engine_rest ta velocity na (length (heap w))
    (mkWorld (built (heap w) []) (output w)).
Proof. reflexivity. Qed.

Lemma tidy_engine_rest h0 ta velocity na :
  tidy h0 (engine_rest ta velocity na (length h0)).
Proof.
  unfold engine_rest, attr_departure_station, attr_departure_time, attr_stops,
    list_len, dict_getitem.
  repeat first [apply tidy_range_loop | tidy_step].
Qed.

Lemma bind_returns {A B} (c : prog num A) (f : A → prog num B) w b :
  ((c ≫= f) w).1 = Ok b → ∃ a w1, c w = (Ok a, w1) ∧ (f a w1).1 = Ok b.
Proof.
  unfold mbind, prog_bind. destruct (c w) as [[a|e] w1]; simpl.
  - intros Hf. exists a, w1. auto.
  - discriminate.
Qed.

(** The engine returns the list it allocated first. *)
Lemma engine_rest_returns ta velocity na movement w a :
  (engine_rest ta velocity na movement w).1 = Ok a → a = movement.
Proof.
  unfold engine_rest. intros Hr.
  repeat (apply bind_returns in Hr as (? & ? & _ & Hr)).
  simpl in Hr. congruence.
Qed.

(** C9. A call of the engine leaves every object of its caller's store as
    it was (the timetable, its list of stops, the stops and the network
    among them), writes nothing to the output, and the list it returns is a
    new object whose items are new, distinct [Position] objects; these hold
    numbers only, so nothing in the result refers back to the inputs.  This
    holds for every store and every pair of addresses, also when the engine
    raises. *)
Theorem engine_is_pure w (timetable : nat) velocity (network : nat) :
  let run := get_train_movement_obj timetable velocity network w in
  unchanged w run.2 ∧
  output run.2 = output w ∧
  ∀ a, run.1 = Ok a → fresh w a ∧ new_positions w run.2 a.
Proof.
  intros run. subst run. rewrite get_train_movement_obj_rest.
  set (w1 := mkWorld (built (heap w) []) (output w)).
  destruct (tidy_engine_rest (heap w) timetable velocity network w1 [] eq_refl)
    as (m & Hheap & Hout).
  simpl in Hheap.
  split; [|split].
  - intros a o Ha. rewrite Hheap. apply built_lookup_old. exact Ha.
  - exact Hout.
  - intros a ->%engine_rest_returns. split; [unfold fresh; lia|].
    exists (seq (S (length (heap w))) (length m)).
    split; [rewrite Hheap; apply built_lookup_list|].
    split; [apply NoDup_seq|].
    apply Forall_forall. intros p [Hlo Hhi]%elem_of_seq.
    split; [unfold fresh; lia|].
    destruct (lookup_lt_is_Some_2 m (p - S (length (heap w)))) as [q Hq]; [lia|].
    exists (time q), (location q). rewrite Hheap.
    replace p with (S (length (heap w)) + (p - S (length (heap w)))) at 1 by lia.
    apply built_lookup_position. exact Hq.
Qed.

(** *** The engine on the store computes what the engine on values does *)

Lemma load_run w a o : heap w !! a = Some o → load a w = (Ok o, w).
Proof. intros Ha. unfold load. rewrite Ha. reflexivity. Qed.

Ltac run_load Ha := rewrite (bind_run _ _ _ _ _ (load_run _ _ _ Ha)); reflexivity.

Lemma attr_stops_run w a r ds dt :
  heap w !! a = Some (OTimetable r ds dt) → attr_stops a w = (Ok r, w).
Proof. intros Ha. unfold attr_stops. run_load Ha. Qed.

Lemma attr_departure_station_run w a r ds dt :
  heap w !! a = Some (OTimetable r ds dt) → attr_departure_station a w = (Ok ds, w).
Proof. intros Ha. unfold attr_departure_station. run_load Ha. Qed.

Lemma attr_departure_time_run w a r ds dt :
  heap w !! a = Some (OTimetable r ds dt) → attr_departure_time a w = (Ok dt, w).
Proof. intros Ha. unfold attr_departure_time. run_load Ha. Qed.

Lemma attr_name_run w a n d :
  heap w !! a = Some (OStop n d) → attr_name a w = (Ok n, w).
Proof. intros Ha. unfold attr_name. run_load Ha. Qed.

Lemma attr_dwell_time_run w a n d :
  heap w !! a = Some (OStop n d) → attr_dwell_time a w = (Ok d, w).
Proof. intros Ha. unfold attr_dwell_time. run_load Ha. Qed.

Lemma list_len_run w l items :
  heap w !! l = Some (OList items) → list_len l w = (Ok (length items), w).
Proof. intros Hl. unfold list_len. run_load Hl. Qed.

Lemma list_getitem_run w l items i a :
  heap w !! l = Some (OList items) → items !! i = Some a →
  list_getitem l i w = (Ok a, w).
Proof.
  intros Hl Hi. unfold list_getitem.
  rewrite (bind_run _ _ _ _ _ (load_run _ _ _ Hl)), Hi. reflexivity.
Qed.

Lemma dict_getitem_run w d (entries : gmap string num) k :
  heap w !! d = Some (ODict entries) → dict_getitem d k w = (getitem entries k, w).
Proof. intros Hd. unfold dict_getitem. run_load Hd. Qed.

Lemma read_stop_Some h a s :
  read_stop h a = Some s → h !! a = Some (OStop (name s) (dwell_time s)).
Proof.
  unfold read_stop. destruct (h !! a) as [[n d| | | |]|]; try discriminate.
  intros [= <-]. reflexivity.
Qed.

Lemma read_movement_built h0 m : read_movement (built h0 m) (length h0) = Some m.
Proof.
  unfold read_movement. rewrite built_lookup_list.
  apply mapM_Some, Forall2_same_length_lookup_2.
  - apply length_seq.
  - intros i a p [-> Hi]%lookup_seq Hp. unfold read_position.
    rewrite (built_lookup_position h0 m i p Hp).
    destruct p. reflexivity.
Qed.

Lemma loop_body_obj_refines h0 ta na (timetable : Timetable num)
    (network : gmap string num) velocity i s ct cl m w :
  represents h0 ta na timetable network →
  heap w = built h0 m →
  stops timetable !! i = Some s →
  loop_body_obj ta velocity na (length h0) i (ct, cl) w =
  match loop_body velocity network s (mkState ct cl m) with
  | Ok st' => (Ok (current_time st', current_location st'),
               mkWorld (built h0 (movement st')) (output w))
  | Raise e => (Raise e, w)
  end.
Proof.
  intros (ra & items & Hta & Hra & Hitems & Hna) Hw Hs.
  apply mapM_Some in Hitems.
  destruct (Forall2_lookup_r _ _ _ _ _ Hitems Hs) as (sa & Hsa & Hread%read_stop_Some).
  apply (built_lookup_old h0 m) in Hta, Hra, Hna, Hread.
  rewrite <- Hw in Hta, Hra, Hna, Hread.
  unfold loop_body_obj, loop_body.
  cbn [fst snd current_time current_location movement].
  rewrite (bind_run _ _ _ _ _ (attr_stops_run _ _ _ _ _ Hta)).
  rewrite (bind_run _ _ _ _ _ (list_getitem_run _ _ _ _ _ Hra Hsa)).
  rewrite (bind_run _ _ _ _ _ (attr_name_run _ _ _ _ Hread)).
  rewrite (bind_run _ _ _ _ _ (attr_dwell_time_run _ _ _ _ Hread)).
  destruct (getitem network (name s)) as [d|e] eqn:Hd.
  2:{ rewrite Raise_bind. apply bind_run_raise.
      rewrite (dict_getitem_run _ _ _ _ Hna), Hd. reflexivity. }
  rewrite Ok_bind.
  rewrite (bind_run _ _ _ d w)
    by (rewrite (dict_getitem_run _ _ _ _ Hna), Hd; reflexivity).
  destruct (truediv (absv (sub d cl)) velocity) as [q|e] eqn:Hq.
  2:{ rewrite Raise_bind. apply bind_run_raise. reflexivity. }
  rewrite Ok_bind.
  rewrite (bind_run _ _ _ q w) by reflexivity.
  rewrite (bind_run _ _ _ _ _ (append_position_built h0 m _ _ w Hw)).
  rewrite (bind_run _ _ _ _ _
             (append_position_built h0 (m ++ [mkPosition (add ct (mul q sixty)) d])
                _ _ (mkWorld (built h0 (m ++ [mkPosition (add ct (mul q sixty)) d]))
                             (output w)) eq_refl)).
  reflexivity.
Qed.

Lemma range_loop_obj_refines h0 ta na (timetable : Timetable num)
    (network : gmap string num) velocity n i ct cl m w :
  represents h0 ta na timetable network →
  heap w = built h0 m →
  i + n ≤ length (stops timetable) →
  ∃ w',
    output w' = output w ∧
    match range_loop velocity network (stops timetable) n i (mkState ct cl m) with
    | Ok st' =>
      range_loop_obj ta velocity na (length h0) n i (ct, cl) w =
        (Ok (current_time st', current_location st'), w') ∧
      heap w' = built h0 (movement st')
    | Raise e =>
      range_loop_obj ta velocity na (length h0) n i (ct, cl) w = (Raise e, w')
    end.
Proof.
  intros Hrep. revert i ct cl m w.
  induction n as [|n IH]; intros i ct cl m w Hw Hin; simpl.
  - exists w. auto.
  - destruct (lookup_lt_is_Some_2 (stops timetable) i) as [s Hs]; [lia|].
    rewrite Hs.
    pose proof (loop_body_obj_refines h0 ta na timetable network velocity
                  i s ct cl m w Hrep Hw Hs) as Hbody.
    destruct (loop_body velocity network s (mkState ct cl m)) as [st'|e]; simpl.
    + rewrite (bind_run _ _ _ _ _ Hbody).
      destruct st' as [ct' cl' m']. simpl.
      destruct (IH (S i) ct' cl' m' (mkWorld (built h0 m') (output w)) eq_refl)
        as (w' & Hout & Hloop); [lia|].
      exists w'. split; [exact Hout | exact Hloop].
    + exists w. split; [reflexivity|]. apply bind_run_raise. exact Hbody.
Qed.

(** When the store holds a timetable and a network, the engine on the store
    raises what [get_train_movement] raises on them, and otherwise returns
    the address of a list that reads back as the trajectory
    [get_train_movement] returns. *)
Theorem get_train_movement_obj_refines w ta na (timetable : Timetable num)
    (network : gmap string num) velocity :
  represents (heap w) ta na timetable network →
  let run := get_train_movement_obj ta velocity na w in
  match get_train_movement timetable velocity network with
  | Ok m => ∃ a, run.1 = Ok a ∧ read_movement (heap run.2) a = Some m
  | Raise e => run.1 = Raise e
  end.
Proof.
  intros Hrep run. subst run. rewrite get_train_movement_obj_rest.
  set (h0 := heap w). set (w1 := mkWorld (built h0 []) (output w)).
  pose proof Hrep as (ra & items & Hta & Hra & Hitems & Hna).
  apply mapM_Some, Forall2_length in Hitems.
  pose proof (built_lookup_old h0 [] _ _ Hta) as Hta1.
  pose proof (built_lookup_old h0 [] _ _ Hna) as Hna1.
  unfold engine_rest, get_train_movement.
  rewrite (bind_run _ _ _ _ _ (attr_departure_station_run w1 _ _ _ _ Hta1)).
  rewrite (bind_run _ _ _ _ _ (attr_departure_time_run w1 _ _ _ _ Hta1)).
  destruct (getitem network (departure_station timetable)) as [x0|e] eqn:Hx0.
  2:{ rewrite Raise_bind. rewrite (bind_run_raise _ _ w1 e w1); [reflexivity|].
      rewrite (dict_getitem_run w1 _ _ _ Hna1), Hx0. reflexivity. }
  rewrite Ok_bind.
  rewrite (bind_run _ _ _ x0 w1)
    by (rewrite (dict_getitem_run w1 _ _ _ Hna1), Hx0; reflexivity).
  rewrite (bind_run _ _ _ _ _ (append_position_built h0 [] _ _ w1 eq_refl)).
  set (p0 := mkPosition (departure_time timetable) x0).
  set (w2 := mkWorld (built h0 ([] ++ [p0])) (output w1)).
  pose proof (built_lookup_old h0 ([] ++ [p0]) _ _ Hta) as Hta2.
  pose proof (built_lookup_old h0 ([] ++ [p0]) _ _ Hra) as Hra2.
  rewrite (bind_run _ _ _ _ _ (attr_stops_run w2 _ _ _ _ Hta2)).
  rewrite (bind_run _ _ _ _ _ (list_len_run w2 _ _ Hra2)).
  rewrite Hitems.
  destruct (range_loop_obj_refines h0 ta na timetable network velocity
              (length (stops timetable)) 0 (departure_time timetable) x0
              ([] ++ [p0]) w2 Hrep eq_refl) as (w' & _ & Hloop); [lia|].
  fold p0.
  destruct (range_loop velocity network (stops timetable)
              (length (stops timetable)) 0 _) as [st'|e].
  - destruct Hloop as [Hloop Hheap]. rewrite Ok_bind.
    rewrite (bind_run _ _ _ _ _ Hloop). cbn [mret prog_ret fst snd].
    exists (length h0). split; [reflexivity|].
    rewrite Hheap. apply read_movement_built.
  - rewrite Raise_bind. rewrite (bind_run_raise _ _ _ _ _ Hloop). reflexivity.
Qed.

End StoreFacts.

(** ** The scenario of the specification *)

(** C8. On the network [{A:0, B:5, C:10}], at 60 km/h, for the route
    [Stop(B, dwell=2), Stop(C, dwell=0)] leaving A at time 0, the engine
    returns exactly the samples (0,0), (5,5), (7,5), (12,10), (12,10), in
    binary64 arithmetic. *)
Theorem abc_scenario :
  get_train_movement abc_timetable 60%float abc_network =
  Ok [mkPosition 0%float 0%float; mkPosition 5%float 5%float;
      mkPosition 7%float 5%float; mkPosition 12%float 10%float;
      mkPosition 12%float 10%float].
Proof. vm_compute. reflexivity. Qed.

(** The rationals give the same samples, as unreduced fractions. *)
Lemma abc_scenario_Q :
  get_train_movement abc_timetable_Q 60%Q abc_network_Q = Ok abc_samples_Q.
Proof. vm_compute. reflexivity. Qed.

Lemma abc_samples_Q_values :
  Forall2 (λ p q, time p == q.1 ∧ location p == q.2)%Q abc_samples_Q
    [(0, 0); (5, 5); (7, 5); (12, 10); (12, 10)]%Q.
Proof. repeat constructor. Qed.

(** Laws of the rationals the statements on zero dwell and on the direction
    of a leg refer to. *)
Lemma Q_add_zero_r (t : Q) : add t zero = t.
Proof. destruct t as [n d]. simpl. unfold Qplus. simpl. f_equal; lia. Qed.

Lemma Q_absv_sub_swap (a b : Q) : absv (sub a b) = absv (sub b a).
Proof.
  destruct a as [na da], b as [nb db]. simpl.
  unfold Qabs, Qminus, Qplus, Qopp. simpl.
  f_equal; [lia | apply Pos.mul_comm].
Qed.

(** On binary64 too a dwell of zero leaves the time as it is, except that
    [-0.0 + 0.0] is [+0.0] (equal to [-0.0] for Python's [==]). *)
Lemma float_add_zero_r (t : float) :
  Prim2SF t ≠ S754_zero true → add t zero = t.
Proof.
  intros Ht. simpl. apply Prim2SF_inj. rewrite add_spec.
  change (Prim2SF 0%float) with (S754_zero false).
  destruct (Prim2SF t) as [[|]| | |]; try reflexivity. congruence.
Qed.

(** A zero velocity stops the scenario at the first division. *)
Example abc_zero_velocity :
  get_train_movement abc_timetable 0%float abc_network = Raise ZeroDivisionError.
Proof. vm_compute. reflexivity. Qed.

(** A station off the map stops it at the lookup. *)
Example off_the_map_raises :
  get_train_movement off_the_map 60%float abc_network = Raise (KeyError "Z").
Proof. vm_compute. reflexivity. Qed.

(** With a zero velocity the division of the first leg comes before the
    lookup of the second stop. *)
Example off_the_map_zero_velocity :
  get_train_movement off_the_map 0%float abc_network = Raise ZeroDivisionError.
Proof. vm_compute. reflexivity. Qed.

(** The scenario run on the store. *)
Example abc_world_run :
  let run := get_train_movement_obj 4 60%float 0 abc_world in
  run.1 = Ok 5 ∧
  read_movement (heap run.2) 5 =
    Some [mkPosition 0%float 0%float; mkPosition 5%float 5%float;
          mkPosition 7%float 5%float; mkPosition 12%float 10%float;
          mkPosition 12%float 10%float] ∧
  take 5 (heap run.2) = heap abc_world.
Proof. vm_compute. auto. Qed.

(** C5, as the specification states it, fails: a velocity of -60, which is
    below zero, is not rejected; the engine returns a trajectory whose
    times run backwards. *)
Lemma negative_velocity_is_accepted :
  le backwards_velocity zero ∧
  get_train_movement abc_timetable backwards_velocity abc_network =
  Ok [mkPosition 0%float 0%float; mkPosition (-5)%float 5%float;
      mkPosition (-3)%float 5%float; mkPosition (-8)%float 10%float;
      mkPosition (-8)%float 10%float].
Proof. split; vm_compute; reflexivity. Qed.

(** ** The theorems at the scenario *)

Lemma abc_resolvable : resolvable abc_network abc_timetable.
Proof.
  split; [exists 0%float; vm_compute; reflexivity|].
  repeat constructor; simpl;
    [exists 5%float | exists 10%float]; vm_compute; reflexivity.
Defined.

Lemma abc_run : get_train_movement abc_timetable 60%float abc_network = Ok abc_samples.
Proof. vm_compute. reflexivity. Defined.

Lemma first_sample_is_departure_witness :
  abc_network !! "A" = Some 0%float ∧
  get_train_movement abc_timetable 60%float abc_network = Ok abc_samples ∧
  (abc_samples ≠ [] ∧
   abc_samples !! 0 = Some (mkPosition (departure_time abc_timetable) 0%float)).
Proof.
  split; [vm_compute; reflexivity|].
  split; [exact abc_run|].
  apply (first_sample_is_departure abc_timetable 60%float abc_network);
    [vm_compute; reflexivity | exact abc_run].
Defined.

Lemma trajectory_length_witness :
  resolvable abc_network abc_timetable ∧
  ((∀ m, get_train_movement abc_timetable 60%float abc_network = Ok m →
         length m = 1 + 2 * length (stops abc_timetable)) ∧
   (is_zero 60%float = false ∨ stops abc_timetable = [] →
    ∃ m, get_train_movement abc_timetable 60%float abc_network = Ok m ∧
         length m = 1 + 2 * length (stops abc_timetable)) ∧
   (stops abc_timetable = [] →
    ∃ x0, abc_network !! departure_station abc_timetable = Some x0 ∧
          get_train_movement abc_timetable 60%float abc_network =
          Ok [mkPosition (departure_time abc_timetable) x0])).
Proof.
  split; [exact abc_resolvable|].
  apply (trajectory_length abc_timetable 60%float abc_network).
  exact abc_resolvable.
Defined.

Lemma doubling_back_run :
  get_train_movement doubling_back 60%float abc_network = Ok doubling_back_samples.
Proof. vm_compute. reflexivity. Defined.

(** The second leg of [doubling_back] goes from C (10 km) back to B (5 km). *)
Lemma arrival_sample_witness :
  get_train_movement doubling_back 60%float abc_network = Ok doubling_back_samples ∧
  stops doubling_back !! 1 = Some (mkStop "B" 0%float) ∧
  ∃ d prev,
    abc_network !! name (mkStop "B" 0%float) = Some d ∧
    doubling_back_samples !! (2 * 1) = Some prev ∧
    doubling_back_samples !! (2 * 1 + 1) =
      Some (mkPosition
              (add (time prev)
                   (mul (quot (absv (sub d (location prev))) 60%float) sixty))
              d) ∧
    ((∀ a b : float, absv (sub a b) = absv (sub b a)) →
     doubling_back_samples !! (2 * 1 + 1) =
       Some (mkPosition
               (add (time prev)
                    (mul (quot (absv (sub (location prev) d)) 60%float) sixty))
               d)).
Proof.
  split; [exact doubling_back_run|].
  split; [reflexivity|].
  apply (arrival_sample doubling_back 60%float abc_network doubling_back_samples 1);
    [exact doubling_back_run | reflexivity].
Defined.


Lemma velocity_is_only_a_divisor_witness :
  abc_network !! departure_station abc_timetable = Some 0%float ∧
  ((∀ s rest, stops abc_timetable = s :: rest → is_Some (abc_network !! name s) →
              is_zero 0%float = true →
              get_train_movement abc_timetable 0%float abc_network =
              Raise ZeroDivisionError) ∧
   (stops abc_timetable = [] →
    get_train_movement abc_timetable 0%float abc_network =
    Ok [mkPosition (departure_time abc_timetable) 0%float]) ∧
   (Forall (λ s, is_Some (abc_network !! name s)) (stops abc_timetable) →
    is_zero 0%float = false →
    ∃ m, get_train_movement abc_timetable 0%float abc_network = Ok m ∧
         length m = 1 + 2 * length (stops abc_timetable))).
Proof.
  split; [vm_compute; reflexivity|].
  apply (velocity_is_only_a_divisor abc_timetable 0%float abc_network 0%float).
  vm_compute. reflexivity.
Defined.

Lemma off_the_map_absent :
  abc_network !! departure_station off_the_map = None ∨
  Exists (λ s, abc_network !! name s = None) (stops off_the_map).
Proof.
  right. apply Exists_cons_tl, Exists_cons_hd. vm_compute. reflexivity.
Defined.

Lemma unknown_station_aborts_witness :
  (abc_network !! departure_station off_the_map = None ∨
   Exists (λ s, abc_network !! name s = None) (stops off_the_map)) ∧
  (is_ok (get_train_movement off_the_map 60%float abc_network) = false ∧
   (abc_network !! departure_station off_the_map = None →
    get_train_movement off_the_map 60%float abc_network =
    Raise (KeyError (departure_station off_the_map))) ∧
   (is_zero 60%float = false →
    ∃ k, abc_network !! k = None ∧
         (k = departure_station off_the_map ∨
          ∃ s, s ∈ stops off_the_map ∧ k = name s) ∧
         get_train_movement off_the_map 60%float abc_network = Raise (KeyError k))).
Proof.
  split; [exact off_the_map_absent|].
  apply (unknown_station_aborts off_the_map 60%float abc_network).
  exact off_the_map_absent.
Defined.


Lemma samples_at_stations_witness :
  get_train_movement abc_timetable 60%float abc_network = Ok abc_samples ∧
  mkPosition 7%float 5%float ∈ abc_samples ∧
  (abc_network !! departure_station abc_timetable =
     Some (location (mkPosition 7%float 5%float)) ∨
   ∃ s, s ∈ stops abc_timetable ∧
        abc_network !! name s = Some (location (mkPosition 7%float 5%float))).
Proof.
  assert (Hp : mkPosition 7%float 5%float ∈ abc_samples).
  { unfold abc_samples. repeat constructor. }
  split; [exact abc_run|].
  split; [exact Hp|].
  exact (samples_at_stations abc_timetable 60%float abc_network abc_samples
           _ abc_run Hp).
Defined.

(** * Further properties of the engine *)

Section EngineOutcomes.
Context {num : Type} `{!Arith num}.
Implicit Types (network : gmap string num) (velocity t x : num).
Implicit Types (route : list (Stop num)) (m tl : list (Position num)).
Implicit Types (timetable : Timetable num) (e : exn).

(** What the legs can raise: the [KeyError] of a stop the network lacks, or
    [ZeroDivisionError] under a zero velocity. *)
Lemma legs_raises velocity network t x route e :
  legs velocity network t x route = Raise e →
  (∃ s, s ∈ route ∧ network !! name s = None ∧ e = KeyError (name s)) ∨
  (e = ZeroDivisionError ∧ is_zero velocity = true).
Proof.
  revert t x. induction route as [|s rest IH]; intros t x; simpl; [discriminate|].
  intros Hl. apply bind_Raise in Hl as [Hl | (d & Hd & Hl)].
  { apply getitem_Raise in Hl as [Hnone ->].
    left. exists s. split; [left | auto]. }
  apply bind_Raise in Hl as [Hl | (q & Hq & Hl)].
  { right. unfold truediv in Hl. destruct (is_zero velocity); [|discriminate].
    injection Hl as <-. auto. }
  apply bind_Raise in Hl as [Hl | (tl & _ & Hl)]; [|discriminate].
  destruct (IH _ _ Hl) as [(s' & Hs' & Hnone & ->) | Hz]; [left | right; exact Hz].
  exists s'. split; [right; exact Hs' | auto].
Qed.

(** The engine raises nothing but the [KeyError] of a station the timetable
    names and the network lacks, or [ZeroDivisionError] under a zero velocity
    on a route that is not empty; never [IndexError] or [TypeError]. *)
Theorem get_train_movement_raises timetable velocity network e :
  get_train_movement timetable velocity network = Raise e →
  (∃ k, e = KeyError k ∧ network !! k = None ∧
        (k = departure_station timetable ∨
         ∃ s, s ∈ stops timetable ∧ k = name s)) ∨
  (e = ZeroDivisionError ∧ is_zero velocity = true ∧ stops timetable ≠ []).
Proof.
  rewrite get_train_movement_legs. intros Hr.
  apply bind_Raise in Hr as [Hr | (x0 & Hx0 & Hr)].
  { apply getitem_Raise in Hr as [Hnone ->].
    left. exists (departure_station timetable). auto. }
  apply bind_Raise in Hr as [Hr | (tl & _ & Hr)]; [|discriminate].
  destruct (legs_raises _ _ _ _ _ _ Hr) as [(s & Hs & Hnone & ->) | [-> Hz]].
  - left. exists (name s). split; [reflexivity|]. split; [exact Hnone|].
    right. exists s. auto.
  - right. split; [reflexivity|]. split; [exact Hz|].
    intros Hnil. rewrite Hnil in Hr. discriminate.
Qed.

Lemma engine_returns_iff timetable velocity network :
  (∃ m, get_train_movement timetable velocity network = Ok m) ↔
  resolvable network timetable ∧
  (stops timetable = [] ∨ is_zero velocity = false).
Proof.
  rewrite get_train_movement_legs. split.
  - intros (m & Hm).
    apply bind_Ok in Hm as (x0 & Hx0%getitem_Ok & Hm).
    apply bind_Ok in Hm as (tl & [Hres Hv]%legs_Ok_resolves & _).
    split; [split; [eauto | exact Hres]|].
    destruct (stops timetable) as [|s rest]; [left; reflexivity|].
    right. apply Hv. discriminate.
  - intros [[[x0 Hx0%getitem_Ok] Hres] Hv]. rewrite Hx0. simpl.
    destruct Hv as [Hnil | Hv].
    + rewrite Hnil. eexists. reflexivity.
    + destruct (legs_returns velocity network (departure_time timetable) x0
                  (stops timetable) Hres Hv) as [tl ->].
      eexists. reflexivity.
Qed.

(** The engine returns a trajectory exactly when every station of the
    timetable is a key of the network and the velocity is not zero or the
    route is empty. *)
Theorem get_train_movement_returns_iff timetable velocity network :
  (∃ m, get_train_movement timetable velocity network = Ok m) ↔
  resolvable network timetable ∧
  (stops timetable = [] ∨ is_zero velocity = false).
Proof. exact (engine_returns_iff timetable velocity network). Qed.

Lemma engine_returns_length timetable velocity network m :
  get_train_movement timetable velocity network = Ok m →
  length m = 1 + 2 * length (stops timetable).
Proof.
  rewrite get_train_movement_legs. intros Hm.
  apply bind_Ok in Hm as (x0 & _ & Hm).
  apply bind_Ok in Hm as (tl & Htl%legs_length & [= <-]).
  simpl. lia.
Qed.

End EngineOutcomes.

Lemma get_train_movement_raises_witness :
  get_train_movement off_the_map 60%float abc_network = Raise (KeyError "Z") ∧
  ((∃ k, KeyError "Z" = KeyError k ∧ abc_network !! k = None ∧
         (k = departure_station off_the_map ∨
          ∃ s, s ∈ stops off_the_map ∧ k = name s)) ∨
   (KeyError "Z" = ZeroDivisionError ∧ is_zero 60%float = true ∧
    stops off_the_map ≠ [])).
Proof.
  assert (Hr : get_train_movement off_the_map 60%float abc_network =
               Raise (KeyError "Z")) by (vm_compute; reflexivity).
  split; [exact Hr|].
  exact (get_train_movement_raises off_the_map 60%float abc_network _ Hr).
Defined.

(** ** Routes in two parts *)

Section EngineComposition.
Context {num : Type} `{!Arith num}.
Implicit Types (network : gmap string num) (velocity t x : num).
Implicit Types (route : list (Stop num)) (m tl : list (Position num)).

Lemma bind_mret {A} (r : result A) : r ≫= mret = r.
Proof. destruct r; reflexivity. Qed.

Lemma last_after_stop (p a b : Position num) tl :
  default p (last (a :: b :: tl)) = default b (last tl).
Proof.
  change (last (a :: b :: tl)) with (last (b :: tl)).
  destruct tl as [|c tl]; [reflexivity|].
  change (last (b :: c :: tl)) with (last (c :: tl)).
  destruct (last (c :: tl)) eqn:E; [reflexivity|].
  apply last_None in E. discriminate.
Qed.

(** The legs of a route in two parts: the second part starts from the last
    sample of the first. *)
Lemma legs_app velocity network t x route1 route2 :
  legs velocity network t x (route1 ++ route2) =
  tl1 ← legs velocity network t x route1;
  tl2 ← legs velocity network
         (time (default (mkPosition t x) (last tl1)))
         (location (default (mkPosition t x) (last tl1))) route2;
  mret (tl1 ++ tl2).
Proof.
  revert t x. induction route1 as [|s rest IH]; intros t x.
  - simpl. symmetry. apply bind_mret.
  - change ((s :: rest) ++ route2) with (s :: (rest ++ route2)). cbn [legs].
    destruct (getitem network (name s)) as [d|e]; [|reflexivity].
    rewrite !Ok_bind.
    destruct (truediv _ velocity) as [q|e]; [|reflexivity].
    rewrite !Ok_bind. rewrite IH.
    destruct (legs velocity network _ d rest) as [tl1|e]; [|reflexivity].
    rewrite !Ok_bind. rewrite last_after_stop.
    destruct (legs velocity network _ _ route2) as [tl2|e]; reflexivity.
Qed.

(** The last sample of a route that ends with the stop [s] is at the
    coordinate of the station of [s]. *)
Lemma legs_snoc_last velocity network t x route s tl :
  legs velocity network t x (route ++ [s]) = Ok tl →
  ∃ d t', network !! name s = Some d ∧ last tl = Some (mkPosition t' d).
Proof.
  rewrite legs_app. intros Hl.
  apply bind_Ok in Hl as (tl1 & _ & Hl).
  apply bind_Ok in Hl as (tl2 & Hs & [= <-]).
  apply legs_cons_Ok in Hs as (d & tl' & Hd & _ & [= <-] & ->).
  exists d. eexists. split; [exact Hd|].
  rewrite last_app. reflexivity.
Qed.

(** A journey over a route in two parts is the journey over the first part,
    followed by the journey over the second part that leaves the last stop
    of the first part at the time of its last sample, without the departure
    sample of that second journey.  Exceptions carry over in the same way. *)
Theorem get_train_movement_app route1 s route2 (departure : string) t0
    velocity network :
  get_train_movement (mkTimetable ((route1 ++ [s]) ++ route2) departure t0)
    velocity network =
  m1 ← get_train_movement (mkTimetable (route1 ++ [s]) departure t0)
         velocity network;
  m2 ← get_train_movement
         (mkTimetable route2 (name s) (time (default (mkPosition t0 t0) (last m1))))
         velocity network;
  mret (m1 ++ drop 1 m2).
Proof.
  rewrite (get_train_movement_legs (mkTimetable ((route1 ++ [s]) ++ route2) _ _)).
  rewrite (get_train_movement_legs (mkTimetable (route1 ++ [s]) _ _)).
  cbn [stops departure_station departure_time].
  destruct (getitem network departure) as [x0|e]; [|reflexivity].
  rewrite !Ok_bind. rewrite legs_app.
  destruct (legs velocity network t0 x0 (route1 ++ [s])) as [tl1|e] eqn:H1;
    [|reflexivity].
  rewrite !Ok_bind.
  destruct (legs_snoc_last _ _ _ _ _ _ _ H1) as (d & t' & Hd & Hlast).
  assert (Hlast' : last (mkPosition t0 x0 :: tl1) = Some (mkPosition t' d)).
  { destruct tl1; [discriminate | exact Hlast]. }
  rewrite Hlast, Hlast'. cbn [default from_option id time location].
  rewrite get_train_movement_legs. cbn [stops departure_station departure_time].
  apply getitem_Ok in Hd. rewrite Hd, Ok_bind.
  destruct (legs velocity network t' d route2) as [tl2|e]; reflexivity.
Qed.

End EngineComposition.

(** ** The network builder and the three kinds of train *)

Lemma build_network_dom spacing :
  dom (build_network spacing) = list_to_set station_names.
Proof. unfold build_network. rewrite !dom_insert_L, dom_singleton_L. set_solver. Qed.

Lemma preset_needs (route : list (Stop float)) (network : gmap string float) :
  Forall (λ s, is_Some (network !! name s)) route ↔
  ∀ k, k ∈ name <$> route → is_Some (network !! k).
Proof.
  rewrite Forall_forall. split.
  - intros Hall k (s & -> & Hs)%list_elem_of_fmap. exact (Hall s Hs).
  - intros Hall s Hs. apply Hall, list_elem_of_fmap. eauto.
Qed.

(** On any network, the express returns a trajectory exactly when the
    network has A, D and G, the freight when it has A and G, and the local
    when it has A to G; then they have 5, 3 and 13 samples. *)
Theorem presets_return_iff departure (network : gmap string float) :
  ((∃ m, get_express_movement departure network = Ok m) ↔
   ∀ k, k ∈ ["A"; "D"; "G"] → is_Some (network !! k)) ∧
  ((∃ m, get_freight_movement departure network = Ok m) ↔
   ∀ k, k ∈ ["A"; "G"] → is_Some (network !! k)) ∧
  ((∃ m, get_local_movement departure network = Ok m) ↔
   ∀ k, k ∈ station_names → is_Some (network !! k)) ∧
  (∀ m, get_express_movement departure network = Ok m → length m = 5) ∧
  (∀ m, get_freight_movement departure network = Ok m → length m = 3) ∧
  (∀ m, get_local_movement departure network = Ok m → length m = 13).
Proof.
  unfold get_express_movement, get_freight_movement, get_local_movement.
  repeat split; try (intros m Hm; exact (engine_returns_length _ _ _ _ Hm)).
  all: rewrite engine_returns_iff; unfold resolvable; rewrite preset_needs;
    cbn [stops departure_station].
  all: try (intros [[HA Hrest] _] k Hk;
            apply elem_of_cons in Hk as [-> | Hk]; [exact HA | exact (Hrest k Hk)]).
  all: intros Hall; split; [|right; vm_compute; reflexivity].
  all: split; [apply Hall; left | intros k Hk; apply Hall; right; exact Hk].
Qed.

(** On a network built by [build_network], whatever the spacing and the
    departure time, the three kinds of train get their trajectory: nothing
    is raised. *)
Theorem presets_on_built_network departure spacing :
  (∃ m, get_express_movement departure (build_network spacing) = Ok m ∧ length m = 5) ∧
  (∃ m, get_freight_movement departure (build_network spacing) = Ok m ∧ length m = 3) ∧
  (∃ m, get_local_movement departure (build_network spacing) = Ok m ∧ length m = 13).
Proof.
  assert (Hall : ∀ k, k ∈ station_names → is_Some (build_network spacing !! k)).
  { intros k Hk. rewrite <- elem_of_dom, build_network_dom.
    apply elem_of_list_to_set. exact Hk. }
  unfold get_express_movement, get_freight_movement, get_local_movement.
  repeat split.
  all: match goal with
       | |- ∃ m, get_train_movement ?tt ?v ?net = Ok m ∧ _ =>
         destruct (proj2 (engine_returns_iff tt v net)) as [m Hm];
           [|exists m; split; [exact Hm | exact (engine_returns_length _ _ _ _ Hm)]]
       end.
  all: split; [|right; vm_compute; reflexivity].
  all: split; [apply Hall; unfold station_names; set_solver|].
  all: repeat constructor; apply Hall; unfold station_names; cbn [name]; set_solver.
Qed.

(** ** Every station of the timetable is sampled *)

Section EngineVisits.
Context {num : Type} `{!Arith num}.
Implicit Types (network : gmap string num) (velocity t x : num).
Implicit Types (route : list (Stop num)) (m tl : list (Position num)).

Lemma engine_visits (timetable : Timetable num) velocity network m :
  get_train_movement timetable velocity network = Ok m →
  (∃ p, p ∈ m ∧ network !! departure_station timetable = Some (location p)) ∧
  (∀ s, s ∈ stops timetable →
        ∃ p, p ∈ m ∧ network !! name s = Some (location p)).
Proof.
  intros Hm. pose proof Hm as Hm'. rewrite get_train_movement_legs in Hm'.
  apply bind_Ok in Hm' as (x0 & Hx0%getitem_Ok & Hm').
  apply bind_Ok in Hm' as (tl & Htl & [= <-]).
  split.
  - exists (mkPosition (departure_time timetable) x0). split; [left | exact Hx0].
  - intros s (k & Hk)%list_elem_of_lookup.
    destruct (legs_lookup _ _ _ _ _ _ _ _ Htl Hk)
      as (d & prev & Hd & _ & Harr & _).
    eexists. split; [apply list_elem_of_lookup; exists (2 * k + 1); exact Harr|].
    exact Hd.
Qed.

(** A returned trajectory has a sample at the departure station and a
    sample at the station of every stop of the route: no stop is skipped. *)
Theorem stations_all_sampled (timetable : Timetable num) velocity network m :
  get_train_movement timetable velocity network = Ok m →
  (∃ p, p ∈ m ∧ network !! departure_station timetable = Some (location p)) ∧
  (∀ s, s ∈ stops timetable →
        ∃ p, p ∈ m ∧ network !! name s = Some (location p)).
Proof. exact (engine_visits timetable velocity network m). Qed.

End EngineVisits.

Lemma stations_all_sampled_witness :
  get_train_movement abc_timetable 60%float abc_network = Ok abc_samples ∧
  ((∃ p, p ∈ abc_samples ∧
         abc_network !! departure_station abc_timetable = Some (location p)) ∧
   (∀ s, s ∈ stops abc_timetable →
         ∃ p, p ∈ abc_samples ∧ abc_network !! name s = Some (location p))).
Proof.
  split; [exact abc_run|].
  exact (stations_all_sampled abc_timetable 60%float abc_network abc_samples abc_run).
Defined.

(** On a network built by [build_network] the local train is sampled at
    the coordinate of every station of the network. *)
Theorem local_calls_at_every_station departure spacing (station : string) x :
  build_network spacing !! station = Some x →
  ∃ m p, get_local_movement departure (build_network spacing) = Ok m ∧
         p ∈ m ∧ location p = x.
Proof.
  intros Hx.
  assert (Hall : ∀ k, k ∈ station_names → is_Some (build_network spacing !! k)).
  { intros k Hk. rewrite <- elem_of_dom, build_network_dom.
    apply elem_of_list_to_set. exact Hk. }
  assert (Hin : station ∈ station_names).
  { apply (proj1 (elem_of_list_to_set (C:=gset string) station station_names)).
    rewrite <- (build_network_dom spacing). apply elem_of_dom. eauto. }
  unfold get_local_movement.
  destruct (proj2 (engine_returns_iff (mkTimetable local_route "A" departure)
                     80%float (build_network spacing))) as [m Hm].
  { split; [|right; vm_compute; reflexivity].
    split; [apply Hall; left|].
    apply preset_needs. intros k Hk. apply Hall. right. exact Hk. }
  destruct (engine_visits _ _ _ _ Hm) as [(p0 & Hp0 & Hloc0) Hstops].
  exists m.
  apply elem_of_cons in Hin as [-> | Hin].
  { exists p0. split; [exact Hm|]. split; [exact Hp0|].
    cbn [departure_station] in Hloc0. congruence. }
  change (station ∈ name <$> local_route) in Hin.
  apply list_elem_of_fmap in Hin as (s & -> & Hs).
  destruct (Hstops s Hs) as (p & Hp & Hloc).
  exists p. split; [exact Hm|]. split; [exact Hp | congruence].
Qed.

Lemma local_calls_at_every_station_witness :
  build_network 5%float !! "E" = Some 20%float ∧
  ∃ m p, get_local_movement 5%float (build_network 5%float) = Ok m ∧
         p ∈ m ∧ location p = 20%float.
Proof.
  assert (Hx : build_network 5%float !! "E" = Some 20%float)
    by (vm_compute; reflexivity).
  split; [exact Hx|].
  exact (local_calls_at_every_station 5%float 5%float "E" 20%float Hx).
Defined.

(** ** Calls that share their inputs *)

Section StoreSharing.
Context {num : Type} `{!Arith num}.
Implicit Types (w : world num) (h : list (obj num)) (m : list (Position num)).

Lemma read_stop_built h0 m a s :
  read_stop h0 a = Some s → read_stop (built h0 m) a = Some s.
Proof.
  intros Hs%read_stop_Some. unfold read_stop.
  rewrite (built_lookup_old h0 m _ _ Hs). destruct s. reflexivity.
Qed.

Lemma represents_built h0 m ta na (timetable : Timetable num)
    (network : gmap string num) :
  represents h0 ta na timetable network →
  represents (built h0 m) ta na timetable network.
Proof.
  intros (route & items & Hta & Hroute & Hitems & Hna).
  exists route, items.
  split; [apply built_lookup_old; exact Hta|].
  split; [apply built_lookup_old; exact Hroute|].
  split; [|apply built_lookup_old; exact Hna].
  apply mapM_Some. apply mapM_Some in Hitems.
  eapply Forall2_impl; [exact Hitems|].
  intros a s. apply read_stop_built.
Qed.

Lemma read_movement_old h0 m' a m :
  read_movement h0 a = Some m → read_movement (built h0 m') a = Some m.
Proof.
  unfold read_movement.
  destruct (h0 !! a) as [[| | |items|]|] eqn:Ha; try discriminate.
  rewrite (built_lookup_old h0 m' _ _ Ha).
  intros Hitems%mapM_Some. apply mapM_Some.
  eapply Forall2_impl; [exact Hitems|].
  intros p q. unfold read_position.
  destruct (h0 !! p) as [[| |t x| |]|] eqn:Hp; try discriminate.
  rewrite (built_lookup_old h0 m' _ _ Hp). auto.
Qed.

(** The store after a call: the store before it, the list and its samples. *)
Lemma engine_run_built w ta (velocity : num) na :
  ∃ m, heap (get_train_movement_obj ta velocity na w).2 = built (heap w) m ∧
       ∀ a, (get_train_movement_obj ta velocity na w).1 = Ok a →
            a = length (heap w).
Proof.
  rewrite get_train_movement_obj_rest.
  destruct (tidy_engine_rest (heap w) ta velocity na
              (mkWorld (built (heap w) []) (output w)) [] eq_refl)
    as (m & Hheap & _).
  exists m. split; [exact Hheap|].
  intros a Ha. exact (engine_rest_returns _ _ _ _ _ _ Ha).
Qed.

(** Two calls in a row on timetables and networks of the same store, which
    may share their list of stops, their stops or their network: both
    return, the two lists are different objects, and after the second call
    each list still reads as the trajectory of its own call. *)
Theorem successive_calls w ta1 na1 ta2 na2 (tt1 tt2 : Timetable num)
    (net1 net2 : gmap string num) (v1 v2 : num) m1 m2 :
  represents (heap w) ta1 na1 tt1 net1 →
  represents (heap w) ta2 na2 tt2 net2 →
  get_train_movement tt1 v1 net1 = Ok m1 →
  get_train_movement tt2 v2 net2 = Ok m2 →
  let run1 := get_train_movement_obj ta1 v1 na1 w in
  let run2 := get_train_movement_obj ta2 v2 na2 run1.2 in
  ∃ a1 a2,
    run1.1 = Ok a1 ∧ run2.1 = Ok a2 ∧ a1 ≠ a2 ∧
    read_movement (heap run2.2) a1 = Some m1 ∧
    read_movement (heap run2.2) a2 = Some m2.
Proof.
  intros Hrep1 Hrep2 Hm1 Hm2 run1 run2.
  pose proof (get_train_movement_obj_refines w ta1 na1 tt1 net1 v1 Hrep1) as H1.
  cbn zeta in H1. rewrite Hm1 in H1. destruct H1 as (a1 & Ha1 & Hread1).
  destruct (engine_run_built w ta1 v1 na1) as (mm1 & Hheap1 & Haddr1).
  fold run1 in Ha1, Hread1, Hheap1, Haddr1.
  assert (Hrep2' : represents (heap run1.2) ta2 na2 tt2 net2).
  { rewrite Hheap1. apply represents_built. exact Hrep2. }
  pose proof (get_train_movement_obj_refines run1.2 ta2 na2 tt2 net2 v2 Hrep2')
    as H2.
  cbn zeta in H2. rewrite Hm2 in H2. destruct H2 as (a2 & Ha2 & Hread2).
  destruct (engine_run_built run1.2 ta2 v2 na2) as (mm2 & Hheap2 & Haddr2).
  fold run2 in Ha2, Hread2, Hheap2, Haddr2.
  exists a1, a2. split; [exact Ha1|]. split; [exact Ha2|]. split.
  - rewrite (Haddr1 a1 Ha1), (Haddr2 a2 Ha2), Hheap1, length_built. lia.
  - split; [|exact Hread2].
    rewrite Hheap2. apply read_movement_old. exact Hread1.
Qed.

End StoreSharing.

Lemma abc_world_represents : represents (heap abc_world) 4 0 abc_timetable abc_network.
Proof. exists 3, [1; 2]. repeat split. Defined.

Lemma successive_calls_witness :
  represents (heap abc_world) 4 0 abc_timetable abc_network ∧
  get_train_movement abc_timetable 60%float abc_network = Ok abc_samples ∧
  let run1 := get_train_movement_obj 4 60%float 0 abc_world in
  let run2 := get_train_movement_obj 4 60%float 0 run1.2 in
  ∃ a1 a2,
    run1.1 = Ok a1 ∧ run2.1 = Ok a2 ∧ a1 ≠ a2 ∧
    read_movement (heap run2.2) a1 = Some abc_samples ∧
    read_movement (heap run2.2) a2 = Some abc_samples.
Proof.
  split; [exact abc_world_represents|]. split; [exact abc_run|].
  exact (successive_calls abc_world 4 0 4 0 abc_timetable abc_timetable
           abc_network abc_network 60%float 60%float abc_samples abc_samples
           abc_world_represents abc_world_represents abc_run abc_run).
Defined.

(** ** The metro trains of [run_figures] *)

Lemma metro_route_resolves :
  Forall (λ s, is_Some (victoria_network !! name s)) metro_route.
Proof.
  apply Forall_forall. intros s (kv & -> & Hkv)%list_elem_of_fmap. cbn [name].
  apply elem_of_dom. unfold victoria_network. rewrite dom_list_to_map_L.
  apply elem_of_list_to_set, list_elem_of_fmap. eauto.
Qed.

Lemma victoria_origin :
  victoria_network !! "Walthamstow Central" = Some walthamstow_central_km.
Proof. vm_compute. reflexivity. Qed.

Lemma metro_returns (t : float) :
  ∃ m, get_train_movement (metro_timetable t) 50%float victoria_network = Ok m ∧
       length m = 33.
Proof.
  destruct (proj2 (engine_returns_iff (metro_timetable t) 50%float victoria_network))
    as [m Hm].
  { split; [|right; vm_compute; reflexivity].
    split; [|exact metro_route_resolves].
    cbn [metro_timetable departure_station]. rewrite victoria_origin. eauto. }
  exists m. split; [exact Hm | exact (engine_returns_length _ _ _ _ Hm)].
Qed.

(** Every metro train of [run_figures] has the station it leaves from as
    the first stop of its route.  Whatever its departure time [t], it gets
    a trajectory of 33 samples, and the first three are at Walthamstow
    Central: the departure at [t], an arrival after a leg of no length at
    [t + 0.0], and the end of the dwell one minute later. *)
Theorem metro_waits_at_origin (t : float) :
  ∃ m,
    get_train_movement (metro_timetable t) 50%float victoria_network = Ok m ∧
    length m = 33 ∧
    m !! 0 = Some (mkPosition t walthamstow_central_km) ∧
    m !! 1 = Some (mkPosition (t + 0)%float walthamstow_central_km) ∧
    m !! 2 = Some (mkPosition (t + 0 + 1)%float walthamstow_central_km).
Proof.
  destruct (metro_returns t) as (m & Hm & Hlen).
  exists m. split; [exact Hm|]. split; [exact Hlen|].
  pose proof Hm as Hm'. rewrite get_train_movement_legs in Hm'.
  cbn [metro_timetable departure_station departure_time stops] in Hm'.
  unfold getitem in Hm'. rewrite victoria_origin, Ok_bind in Hm'.
  apply bind_Ok in Hm' as (tl & Htl & [= <-]).
  destruct (legs_lookup _ _ _ _ _ _ 0 (mkStop "Walthamstow Central" 1%float)
              Htl eq_refl) as (d & prev & Hd & Hprev & Harr & Hdep).
  cbn [name] in Hd. rewrite victoria_origin in Hd. injection Hd as <-.
  injection Hprev as <-. cbn [time location dwell_time] in Harr, Hdep.
  split; [reflexivity|]. split; [exact Harr | exact Hdep].
Qed.

(** The fifteen trains of [run_figures]: none raises, the labels differ, and
    each trajectory has 33 samples. *)
Example metro_movements_run :
  NoDup metro_movements.*1 ∧
  Forall (λ r, ∃ m, r = Ok m ∧ length m = 33) metro_movements.*2.
Proof.
  split.
  - apply (bool_decide_unpack (NoDup metro_movements.*1)). vm_compute. exact I.
  - apply Forall_forall. intros r (i & -> & Hi)%list_elem_of_fmap.
    apply list_elem_of_fmap in Hi as (j & -> & _). cbn [snd].
    exact (metro_returns (metro_departure j)).
Qed.

(** ** The engine reads the network at the stations of the timetable only *)

Section EngineNetwork.
Context {num : Type} `{!Arith num}.
Implicit Types (network : gmap string num) (velocity t x : num).
Implicit Types (route : list (Stop num)).

Lemma legs_agree velocity network1 network2 t x route :
  Forall (λ s, network1 !! name s = network2 !! name s) route →
  legs velocity network1 t x route = legs velocity network2 t x route.
Proof.
  intros Hagree. revert t x.
  induction Hagree as [|s rest Hs _ IH]; intros t x; [reflexivity|].
  cbn [legs]. unfold getitem. rewrite Hs.
  destruct (network2 !! name s) as [d|]; [|reflexivity].
  rewrite !Ok_bind.
  destruct (truediv _ velocity) as [q|e]; [|reflexivity].
  rewrite !Ok_bind, IH. reflexivity.
Qed.

(** Two networks that give the same answer for the departure station and
    for the station of every stop give the same outcome, trajectory or
    exception: stations the timetable does not name play no part. *)
Theorem network_agreement (timetable : Timetable num) velocity network1 network2 :
  network1 !! departure_station timetable = network2 !! departure_station timetable →
  Forall (λ s, network1 !! name s = network2 !! name s) (stops timetable) →
  get_train_movement timetable velocity network1 =
  get_train_movement timetable velocity network2.
Proof.
  intros Hdep Hstops. rewrite !get_train_movement_legs.
  unfold getitem. rewrite Hdep.
  destruct (network2 !! departure_station timetable) as [x0|]; [|reflexivity].
  rewrite !Ok_bind, (legs_agree _ _ _ _ _ _ Hstops). reflexivity.
Qed.

End EngineNetwork.

Lemma network_agreement_witness :
  abc_network !! departure_station abc_timetable =
    build_network 5%float !! departure_station abc_timetable ∧
  Forall (λ s, abc_network !! name s = build_network 5%float !! name s)
    (stops abc_timetable) ∧
  get_train_movement abc_timetable 60%float abc_network =
  get_train_movement abc_timetable 60%float (build_network 5%float).
Proof.
  assert (Hdep : abc_network !! departure_station abc_timetable =
                 build_network 5%float !! departure_station abc_timetable)
    by (vm_compute; reflexivity).
  assert (Hstops : Forall (λ s, abc_network !! name s =
                                build_network 5%float !! name s)
                     (stops abc_timetable))
    by (repeat constructor; vm_compute; reflexivity).
  split; [exact Hdep|]. split; [exact Hstops|].
  exact (network_agreement abc_timetable 60%float abc_network
           (build_network 5%float) Hdep Hstops).
Defined.

(** ** The order of the sample times at the scenario *)

(** C4, as the specification states it, fails on binary64: leaving at a
    time that is not a number, with every station resolvable, the velocity
    60 above zero and the dwell times 2 and 0 not below zero, the engine
    returns the times nan, nan, nan, nan, nan, and nan is not [<=] nan. *)
Lemma nan_departure_is_not_ordered :
  resolvable abc_network nan_timetable ∧
  lt zero 60%float ∧
  Forall (λ s, le zero (dwell_time s)) (stops nan_timetable) ∧
  ∃ m, get_train_movement nan_timetable 60%float abc_network = Ok m ∧
       ¬ non_decreasing m.
Proof.
  split; [exact abc_resolvable|].
  split; [vm_compute; reflexivity|].
  split; [repeat constructor; vm_compute; reflexivity|].
  eexists. split; [vm_compute; reflexivity|].
  intros Hm. specialize (Hm 0 0 _ _ (le_n 0) eq_refl eq_refl).
  vm_compute in Hm. discriminate Hm.
Qed.

Lemma abc_network_finite : map_Forall (λ _ d, finite64 d) abc_network.
Proof.
  unfold abc_network.
  repeat (apply map_Forall_insert_2; [vm_compute; exact I|]).
  apply map_Forall_empty.
Defined.

Lemma sample_times_non_decreasing_witness :
  resolvable abc_network abc_timetable ∧
  lt zero 60%float ∧
  Forall (λ s, le zero (dwell_time s)) (stops abc_timetable) ∧
  finite64 60%float ∧
  finite64 (departure_time abc_timetable) ∧
  map_Forall (λ _ d, finite64 d) abc_network ∧
  ∃ m, get_train_movement abc_timetable 60%float abc_network = Ok m ∧
       non_decreasing m.
Proof.
  assert (Hv : lt zero 60%float) by (vm_compute; reflexivity).
  assert (Hd : Forall (λ s : Stop float, le zero (dwell_time s)) (stops abc_timetable))
    by (repeat constructor; vm_compute; reflexivity).
  assert (Hfv : finite64 60%float) by (vm_compute; exact I).
  assert (Ht0 : finite64 (departure_time abc_timetable)) by (vm_compute; exact I).
  split; [exact abc_resolvable|]. split; [exact Hv|]. split; [exact Hd|].
  split; [exact Hfv|]. split; [exact Ht0|]. split; [exact abc_network_finite|].
  exact (sample_times_non_decreasing abc_timetable 60%float abc_network
           abc_resolvable Hv Hd Hfv Ht0 abc_network_finite).
Defined.

Lemma from_a_via_a_run :
  get_train_movement from_a_via_a 60%float abc_network = Ok from_a_via_a_samples.
Proof. vm_compute. reflexivity. Defined.

Lemma zero_length_leg_witness :
  get_train_movement from_a_via_a 60%float abc_network = Ok from_a_via_a_samples ∧
  stops from_a_via_a !! 0 = Some (mkStop "A" 1%float) ∧
  from_a_via_a_samples !! (2 * 0) = Some (mkPosition 0%float 0%float) ∧
  abc_network !! name (mkStop "A" 1%float) =
    Some (location (mkPosition 0%float 0%float)) ∧
  finite64 (location (mkPosition 0%float 0%float)) ∧
  Prim2SF 60%float ≠ S754_nan ∧
  Prim2SF (time (mkPosition 0%float 0%float)) ≠ S754_zero true ∧
  from_a_via_a_samples !! (2 * 0 + 1) = Some (mkPosition 0%float 0%float).
Proof.
  assert (Hd : abc_network !! name (mkStop "A" 1%float) =
               Some (location (mkPosition 0%float 0%float)))
    by (vm_compute; reflexivity).
  assert (Hfin : finite64 (location (mkPosition 0%float 0%float)))
    by (vm_compute; exact I).
  assert (Hnan : Prim2SF 60%float ≠ S754_nan) by (vm_compute; discriminate).
  assert (Hneg : Prim2SF (time (mkPosition 0%float 0%float)) ≠ S754_zero true)
    by (vm_compute; discriminate).
  split; [exact from_a_via_a_run|]. split; [reflexivity|]. split; [reflexivity|].
  split; [exact Hd|]. split; [exact Hfin|]. split; [exact Hnan|]. split; [exact Hneg|].
  exact (zero_length_leg from_a_via_a 60%float abc_network from_a_via_a_samples
           0 _ _ from_a_via_a_run eq_refl eq_refl Hd Hfin Hnan Hneg).
Defined.
